(** * javascript-masks: the placeholder-template engine of [phone-mask.js]

    A shallow embedding of [PhoneNumberMask] (src/phone-mask.js) and of the
    constructor of [MoneyMask] (src/money-mask.js), followed by the
    properties of the template engine: parsing a mask into a matcher,
    rendering digits into a mask, best-match selection, the two cursor maps,
    deletion and validation.

    JavaScript strings are sequences of code units; they are modelled as
    [list ascii].  Exceptions are modelled by the [result] type. *)

From Stdlib Require Import Ascii String List ZArith Lia Bool Arith.
Import ListNotations.
Open Scope list_scope.
Open Scope char_scope.

(** ** JavaScript values *)

Module Js.

Definition str := list ascii.

(** A string literal, as a sequence of code units. *)
Definition js (s : string) : str := list_ascii_of_string s.

Definition str_eqb (a b : str) : bool :=
  if list_eq_dec ascii_dec a b then true else false.

(** The thrown values the modelled code can produce.  [DOMException] is what
    a DOM method throws, with its [name].  [Unsupported] is not a
    JavaScript exception: it marks a pattern source outside the fragment of
    the regular-expression syntax interpreted by [RegExp.compile] below. *)
Inductive exn : Type :=
| TypeError
| Error (message : str)
| DOMException (name : str)
| Unsupported.

Inductive result (A : Type) : Type :=
| Ok (a : A)
| Throw (e : exn).
Arguments Ok {A} a.
Arguments Throw {A} e.

Definition bind {A B : Type} (r : result A) (k : A -> result B) : result B :=
  match r with
  | Ok a => k a
  | Throw e => Throw e
  end.

(** [Array.prototype.map] with a callback that may throw. *)
Fixpoint mapM {A B : Type} (f : A -> result B) (l : list A) : result (list B) :=
  match l with
  | [] => Ok []
  | x :: l' => bind (f x) (fun y => bind (mapM f l') (fun ys => Ok (y :: ys)))
  end.

(** [a[i]] for a JavaScript number [i]: [undefined] outside the array. *)
Definition lookupZ {A : Type} (l : list A) (i : Z) : option A :=
  if (i <? 0)%Z then None else nth_error l (Z.to_nat i).

(** Reading a property of a value that may be [undefined]. *)
Definition defined {A : Type} (o : option A) : result A :=
  match o with
  | Some a => Ok a
  | None => Throw TypeError
  end.

(** The class [\d] of a pattern without the unicode flag: [0-9]. *)
Definition isDigit (c : ascii) : bool :=
  (48 <=? nat_of_ascii c)%nat && (nat_of_ascii c <=? 57)%nat.

(** [s.replace(/\D/g, '')] *)
Definition stripNonDigits (s : str) : str := filter isDigit s.

(** [s.slice(a)] and [s.slice(0, b)] for non-negative [a], [b]. *)
Definition sliceFrom (s : str) (a : nat) : str := skipn a s.
Definition sliceTo (s : str) (b : nat) : str := firstn b s.

(** [language.split('-')[0]] *)
Fixpoint beforeDash (s : str) : str :=
  match s with
  | [] => []
  | c :: s' => if Ascii.eqb c "-" then [] else c :: beforeDash s'
  end.

End Js.
Import Js.

Declare Scope js_scope.
Delimit Scope js_scope with js.
Notation "x <- e ;; k" := (bind e (fun x => k))
  (at level 61, e at next level, right associativity) : js_scope.
Open Scope js_scope.

(** ** Regular expressions

    [parseMask] builds a pattern source and hands it to [new RegExp].  The
    fragment of the pattern syntax it can emit is interpreted here: an
    anchored sequence of atoms, each either one literal character (written
    plainly or behind a backslash) or the group [(\d?)]. *)

Module RegExp.

Inductive atom : Type :=
| Lit (c : ascii)
| DigitOpt.

Definition t := list atom.

(** The syntax characters of a pattern. *)
Definition syntaxChar (c : ascii) : bool :=
  existsb (Ascii.eqb c)
    ["."; "*"; "+"; "?"; "^"; "$"; "{"; "}"; "("; ")"; "|"; "["; "]"; "\"].

Definition consAtom (a : atom) (r : result t) : result t :=
  x <- r ;; Ok (a :: x).

(** The body of the pattern, up to and including the closing [$]. *)
Fixpoint parseAtoms (p : str) : result t :=
  match p with
  | [] => Throw Unsupported
  | c :: p1 =>
    if Ascii.eqb c "$" then
      match p1 with [] => Ok [] | _ :: _ => Throw Unsupported end
    else if Ascii.eqb c "\" then
      match p1 with
      | e :: p2 =>
        if syntaxChar e then consAtom (Lit e) (parseAtoms p2)
        else Throw Unsupported
      | [] => Throw Unsupported
      end
    else if Ascii.eqb c "(" then
      match p1 with
      | c2 :: c3 :: c4 :: c5 :: p5 =>
        if Ascii.eqb c2 "\" && Ascii.eqb c3 "d" && Ascii.eqb c4 "?"
           && Ascii.eqb c5 ")"
        then consAtom DigitOpt (parseAtoms p5)
        else Throw Unsupported
      | _ => Throw Unsupported
      end
    else if syntaxChar c then Throw Unsupported
    else consAtom (Lit c) (parseAtoms p1)
  end.

(** [new RegExp(source)] *)
Definition compile (source : str) : result t :=
  match source with
  | c :: p => if Ascii.eqb c "^" then parseAtoms p else Throw Unsupported
  | [] => Throw Unsupported
  end.

(** [regex.test(s)] for an anchored pattern: a backtracking match in which
    the optional digit is tried first (the quantifier is greedy) and the
    empty alternative second. *)
Fixpoint test (r : t) (s : str) : bool :=
  match r with
  | [] => match s with [] => true | _ :: _ => false end
  | Lit c :: r' =>
    match s with
    | x :: s' => Ascii.eqb x c && test r' s'
    | [] => false
    end
  | DigitOpt :: r' =>
    match s with
    | x :: s' => isDigit x && test r' s'
    | [] => false
    end || test r' s
  end.

End RegExp.

(** ** The DOM input element *)

Module Dom.

Record HTMLInputElement : Type := {
  value : str;
  selectionStart : nat;
  selectionEnd : nat;
  validationMessage : str
}.

(** The line feed and the carriage return. *)
Definition isLineBreak (c : ascii) : bool :=
  Ascii.eqb c "010" || Ascii.eqb c "013".

(** The value sanitization of a single-line text field (type [text] or
    [tel]): line breaks are stripped. *)
Definition stripLineBreaks (v : str) : str :=
  filter (fun c => negb (isLineBreak c)) v.

(** Assigning [input.value] of a single-line text field: the assigned text
    is sanitized, and when the text of the field changes the caret moves to
    the end of the text. *)
Definition setValueAttr (v : str) (el : HTMLInputElement) : HTMLInputElement :=
  let v' := stripLineBreaks v in
  if str_eqb v' (value el) then el
  else {| value := v';
          selectionStart := length v';
          selectionEnd := length v';
          validationMessage := validationMessage el |}.

(** [input.setSelectionRange(a, b)]: both ends are clamped to the length of
    the text, and the start never exceeds the end. *)
Definition setSelectionRange (a b : nat) (el : HTMLInputElement)
  : HTMLInputElement :=
  let e := Nat.min b (length (value el)) in
  {| value := value el;
     selectionStart := Nat.min a e;
     selectionEnd := e;
     validationMessage := validationMessage el |}.

(** [input.setCustomValidity(message)] *)
Definition setCustomValidity (m : str) (el : HTMLInputElement)
  : HTMLInputElement :=
  {| value := value el;
     selectionStart := selectionStart el;
     selectionEnd := selectionEnd el;
     validationMessage := m |}.

(** The first argument of a mask constructor: a selector string, an
    element, or any other value. *)
Inductive target : Type :=
| Selector (s : str)
| Element (el : HTMLInputElement)
| OtherValue.

(** [document.querySelector]: [Ok None] is [null], and a selector that is
    not valid makes the call throw a [DOMException] named [SyntaxError]. *)
Definition document := str -> result (option HTMLInputElement).

End Dom.
Import Dom.

(** ** [class PhoneNumberMask] *)

Module PhoneNumberMask.

Definition DEFAULT_MESSAGES : list (str * str) :=
  [ (js "en", js "Please enter a valid phone number.");
    (js "en-US", js "Please enter a valid phone number.");
    (js "pt", js "Digite um número de telefone válido.");
    (js "pt-BR", js "Digite um número de telefone válido.");
    (js "es", js "Ingrese un número de teléfono válido.");
    (js "fr", js "Veuillez entrer un numéro de téléphone valide.");
    (js "de", js "Bitte geben Sie eine gültige Telefonnummer ein.") ].

Record Placeholder : Type := { index : nat; charIndex : nat }.

Record MaskData : Type := {
  regex : RegExp.t;
  placeholders : list Placeholder;
  mask : str;
  placeholderChar : ascii;
  digitCount : nat
}.

Record Options : Type := {
  masks : list str;
  messages : list (str * str)
}.

(** The [options] argument of the constructor; [None] is an absent key. *)
Record UserOptions : Type := {
  userMasks : option (list str);
  userMessages : option (list (str * str))
}.

(** The instance: [this.input], [this.options], [this.masksData] and
    [this.activeMaskIndex]. *)
Record t : Type := {
  input : HTMLInputElement;
  options : Options;
  masksData : list MaskData;
  activeMaskIndex : Z
}.

Definition withInput (el : HTMLInputElement) (o : t) : t :=
  {| input := el; options := options o; masksData := masksData o;
     activeMaskIndex := activeMaskIndex o |}.

Definition withActiveMaskIndex (i : Z) (o : t) : t :=
  {| input := input o; options := options o; masksData := masksData o;
     activeMaskIndex := i |}.

(** The values [setValue] is called with: [null], [undefined] or a string. *)
Inductive jsval : Type :=
| JNull
| JUndefined
| JString (s : str).

(** *** [escapeRegExp] *)

(** The class [[.*+?^${}()|[\]\\]] *)
Definition specialChar (c : ascii) : bool :=
  existsb (Ascii.eqb c)
    ["."; "*"; "+"; "?"; "^"; "$"; "{"; "}"; "("; ")"; "|"; "["; "]"; "\"].

Definition escapeRegExp (s : str) : str :=
  flat_map (fun c => if specialChar c then ["\"; c] else [c]) s.

(** *** [parseMask] *)

(** The [for] loop of [parseMask], over the characters of the mask that are
    still to be read, from index [i] on. *)
Fixpoint parseLoop (rest : str) (i : nat) (regexStr : str)
    (placeholders : list Placeholder) (charIndex digitCount : nat)
  : str * list Placeholder * nat :=
  match rest with
  | [] => (regexStr, placeholders, digitCount)
  | c :: rest' =>
    if Ascii.eqb c "#" then
      parseLoop rest' (S i) (regexStr ++ js "(\d?)")
        (placeholders ++ [{| index := i; charIndex := charIndex |}])
        (S charIndex) (S digitCount)
    else
      parseLoop rest' (S i) (regexStr ++ escapeRegExp [c])
        placeholders charIndex digitCount
  end.

Definition parseMask (mask : str) : result MaskData :=
  let placeholderChar := "#" in
  let '(regexStr, placeholders, digitCount) :=
    parseLoop mask 0 (js "^") [] 0 0 in
  let regexStr := regexStr ++ js "$" in
  re <- RegExp.compile regexStr ;;
  Ok {| regex := re;
        placeholders := placeholders;
        mask := mask;
        placeholderChar := placeholderChar;
        digitCount := digitCount |}.

(** [maskData.mask[i] === maskData.placeholderChar] *)
Definition isPlaceholderAt (maskData : MaskData) (i : nat) : bool :=
  match nth_error (mask maskData) i with
  | Some c => Ascii.eqb c (placeholderChar maskData)
  | None => false
  end.

(** *** [getErrorMessage] *)

Fixpoint lookupKey (m : list (str * str)) (k : str) : option str :=
  match m with
  | [] => None
  | (k', v) :: m' => if str_eqb k' k then Some v else lookupKey m' k
  end.

(** A property value used as a condition: absent and empty are falsy. *)
Definition truthy (v : option str) : option str :=
  match v with
  | Some (c :: s) => Some (c :: s)
  | _ => None
  end.

Fixpoint getErrorMessageLoop (messages : list (str * str))
    (userLanguages : list str) : option str :=
  match userLanguages with
  | [] => None
  | language :: rest =>
    match truthy (lookupKey messages language) with
    | Some m => Some m
    | None =>
      let generalLanguage := beforeDash language in
      match truthy (lookupKey messages generalLanguage) with
      | Some m => Some m
      | None => getErrorMessageLoop messages rest
      end
    end
  end.

(** [userLanguages] is [navigator.languages] (or its fallbacks). *)
Definition getErrorMessage (userLanguages : list str) (o : t) : str :=
  match getErrorMessageLoop (messages (options o)) userLanguages with
  | Some m => m
  | None =>
    match truthy (lookupKey (messages (options o)) (js "en")) with
    | Some m => m
    | None =>
      match lookupKey DEFAULT_MESSAGES (js "en") with
      | Some m => m
      | None => []
      end
    end
  end.

(** *** [getUnmaskedValue] *)

Definition getUnmaskedValue (o : t) : str :=
  stripNonDigits (value (input o)).

(** *** [getCursorPosInUnmaskedValue] *)

(** The [for] loop, with [n] iterations left from index [i]. *)
Fixpoint unmaskedLoop (maskData : option MaskData) (n i unmaskedCursorPos : nat)
  : result nat :=
  match n with
  | O => Ok unmaskedCursorPos
  | S n' =>
    m <- defined maskData ;;
    unmaskedLoop maskData n' (S i)
      (if isPlaceholderAt m i then S unmaskedCursorPos else unmaskedCursorPos)
  end.

Definition getCursorPosInUnmaskedValue (formattedCursorPos : nat) (o : t)
  : result nat :=
  if (activeMaskIndex o =? -1)%Z then Ok formattedCursorPos
  else
    let maskData := lookupZ (masksData o) (activeMaskIndex o) in
    unmaskedLoop maskData formattedCursorPos 0 0.

(** *** [setCursorPositionInFormatted] *)

(** The [for] loop with its [break], with [n] iterations left from index
    [i]. *)
Fixpoint formattedLoop (maskData : MaskData) (unmaskedCursorPos : nat)
    (n i unmaskedCount formattedCursorPos : nat) : nat :=
  match n with
  | O => formattedCursorPos
  | S n' =>
    if isPlaceholderAt maskData i then
      if Nat.eqb unmaskedCount unmaskedCursorPos then i
      else formattedLoop maskData unmaskedCursorPos n' (S i)
             (S unmaskedCount) (S formattedCursorPos)
    else formattedLoop maskData unmaskedCursorPos n' (S i)
           unmaskedCount (S formattedCursorPos)
  end.

(** [while (pos < mask.length && mask[pos] !== placeholderChar) pos++],
    with [n = mask.length - pos] iterations left at most. *)
Fixpoint skipLiterals (maskData : MaskData) (n pos : nat) : nat :=
  match n with
  | O => pos
  | S n' =>
    if isPlaceholderAt maskData pos then pos
    else skipLiterals maskData n' (S pos)
  end.

(** The position [setCursorPositionInFormatted] computes for an active
    mask, before it is handed to [setSelectionRange]. *)
Definition formattedCursorPos (maskData : MaskData) (unmaskedCursorPos : nat)
  : nat :=
  let len := length (mask maskData) in
  let formattedCursorPos :=
    formattedLoop maskData unmaskedCursorPos len 0 0 0 in
  skipLiterals maskData (len - formattedCursorPos) formattedCursorPos.

Definition setCursorPositionInFormatted (unmaskedCursorPos : nat) (o : t)
  : result t :=
  if (activeMaskIndex o =? -1)%Z then
    Ok (withInput
          (setSelectionRange unmaskedCursorPos unmaskedCursorPos (input o)) o)
  else
    maskData <- defined (lookupZ (masksData o) (activeMaskIndex o)) ;;
    let pos := formattedCursorPos maskData unmaskedCursorPos in
    Ok (withInput (setSelectionRange pos pos (input o)) o).

(** *** Rendering and best-match selection

    [handleInput] and [setValue] contain the same two nested loops; they are
    written once here. *)

(** The inner [for] loop: the characters of the mask still to be read, the
    index of the next digit and the text built so far. *)
Fixpoint renderLoop (placeholderChar : ascii) (rest : str) (digits : str)
    (digitIndex : nat) (formatted : str) : str :=
  match rest with
  | [] => formatted
  | c :: rest' =>
    if Ascii.eqb c placeholderChar then
      match nth_error digits digitIndex with
      | Some d =>
        renderLoop placeholderChar rest' digits (S digitIndex) (formatted ++ [d])
      | None =>
        renderLoop placeholderChar rest' digits digitIndex formatted
      end
    else
      renderLoop placeholderChar rest' digits digitIndex (formatted ++ [c])
  end.

Definition render (maskData : MaskData) (digits : str) : str :=
  renderLoop (placeholderChar maskData) (mask maskData) digits 0 [].

(** [Math.abs(maskData.digitCount - digits.length)] *)
Definition diffOf (maskData : MaskData) (digits : str) : Z :=
  Z.abs (Z.of_nat (digitCount maskData) - Z.of_nat (length digits)).

(** [diff < bestMatchDiff], where [None] is [Infinity]. *)
Definition ltDiff (diff : Z) (bestMatchDiff : option Z) : bool :=
  match bestMatchDiff with
  | None => true
  | Some b => (diff <? b)%Z
  end.

(** [bestMatchIndex], [bestMatchDiff] and [bestFormatted]. *)
Record Best : Type := {
  bestMatchIndex : Z;
  bestMatchDiff : option Z;
  bestFormatted : str
}.

(** The outer [for] loop, over the masks from index [maskIndex] on. *)
Fixpoint selectLoop (rest : list MaskData) (maskIndex : Z) (digits : str)
    (best : Best) : Best :=
  match rest with
  | [] => best
  | maskData :: rest' =>
    let formatted := render maskData digits in
    let best' :=
      if RegExp.test (regex maskData) formatted then
        let diff := diffOf maskData digits in
        if ltDiff diff (bestMatchDiff best) then
          {| bestMatchIndex := maskIndex;
             bestMatchDiff := Some diff;
             bestFormatted := formatted |}
        else best
      else best in
    selectLoop rest' (maskIndex + 1) digits best'
  end.

Definition selectBestMask (masksData : list MaskData) (digits : str) : Best :=
  selectLoop masksData 0 digits
    {| bestMatchIndex := -1; bestMatchDiff := None; bestFormatted := [] |}.

(** *** [validateInput] *)

Definition validateInput (userLanguages : list str) (o : t) : result t :=
  if negb (activeMaskIndex o =? -1)%Z then
    maskData <- defined (lookupZ (masksData o) (activeMaskIndex o)) ;;
    let isValidRegex := RegExp.test (regex maskData) (value (input o)) in
    let unmaskedValue := getUnmaskedValue o in
    let isValidDigitCount :=
      Nat.eqb (length unmaskedValue) (digitCount maskData) in
    if isValidRegex && isValidDigitCount then
      Ok (withInput (setCustomValidity [] (input o)) o)
    else
      Ok (withInput
            (setCustomValidity (getErrorMessage userLanguages o) (input o)) o)
  else
    Ok (withInput
          (setCustomValidity
             (match value (input o) with
              | _ :: _ => []
              | [] => getErrorMessage userLanguages o
              end) (input o)) o).

(** *** [adjustCursorPosition] *)

(** The [while] loop, with [n = value.length - cursorPosition] iterations
    left at most. *)
Fixpoint adjustLoop (maskData : option MaskData) (n cursorPosition : nat)
  : result nat :=
  match n with
  | O => Ok cursorPosition
  | S n' =>
    m <- defined maskData ;;
    if isPlaceholderAt m cursorPosition then Ok cursorPosition
    else adjustLoop maskData n' (S cursorPosition)
  end.

Definition adjustCursorPosition (o : t) : result t :=
  if negb (activeMaskIndex o =? -1)%Z then
    let maskData := lookupZ (masksData o) (activeMaskIndex o) in
    let cursorPosition := selectionStart (input o) in
    cursorPosition <-
      adjustLoop maskData (length (value (input o)) - cursorPosition)
        cursorPosition ;;
    Ok (withInput (setSelectionRange cursorPosition cursorPosition (input o)) o)
  else Ok o.

(** *** [setValue] *)

(** What follows the computation of the digits in both [setValue] and
    [handleInput]: selection, the display and validation. *)
Definition applyBestMask (userLanguages : list str) (digits : str) (o : t)
  : result t :=
  let best := selectBestMask (masksData o) digits in
  let o := withActiveMaskIndex (bestMatchIndex best) o in
  useFormatted <-
    (if negb (bestMatchIndex best =? -1)%Z then
       maskData <- defined (lookupZ (masksData o) (bestMatchIndex best)) ;;
       Ok (RegExp.test (regex maskData) (bestFormatted best))
     else Ok false) ;;
  let o :=
    withInput
      (setValueAttr (if useFormatted then bestFormatted best else digits)
         (input o)) o in
  validateInput userLanguages o.

Definition setValue (userLanguages : list str) (value : jsval) (o : t)
  : result t :=
  match value with
  | JNull | JUndefined | JString [] =>
    let o := withInput (setValueAttr [] (input o)) o in
    let o := withActiveMaskIndex (-1) o in
    validateInput userLanguages o
  | JString s =>
    let stringValue := stripNonDigits s in
    applyBestMask userLanguages stringValue o
  end.

(** *** [handleInput], [handleBlur], [handlePaste] *)

(** [inputType] is [event.inputType]; [event.target] is [this.input], whose
    text the browser has already updated. *)
Definition handleInput (userLanguages : list str) (inputType : str) (o : t)
  : result t :=
  if str_eqb inputType (js "deleteContentBackward")
     || str_eqb inputType (js "deleteContentForward")
  then Ok o
  else
    let value := value (input o) in
    let digits := stripNonDigits value in
    o <- applyBestMask userLanguages digits o ;;
    adjustCursorPosition o.

Definition handleBlur (userLanguages : list str) (o : t) : result t :=
  validateInput userLanguages o.

Definition handlePaste (userLanguages : list str) (pastedData : str) (o : t)
  : result t :=
  o <- setValue userLanguages (JString (stripNonDigits pastedData)) o ;;
  adjustCursorPosition o.

(** *** [handleKeyDown] *)

Record KeyboardEvent : Type := {
  keyCode : nat;
  ctrlKey : bool;
  metaKey : bool;
  shiftKey : bool
}.

Definition includes (l : list nat) (k : nat) : bool := existsb (Nat.eqb k) l.

(** The backward [while] loop of the Backspace branch; [n] is
    [prevDigitPos + 1], so that [n = 0] is [prevDigitPos = -1]. *)
Fixpoint seekBackward (maskData : option MaskData) (n : nat) : result Z :=
  match n with
  | O => Ok (-1)%Z
  | S prevDigitPos =>
    m <- defined maskData ;;
    if negb (isPlaceholderAt m prevDigitPos) then
      seekBackward maskData prevDigitPos
    else Ok (Z.of_nat prevDigitPos)
  end.

(** The result carries the instance and whether [event.preventDefault()]
    was called. *)
Definition handleKeyDown (userLanguages : list str) (event : KeyboardEvent)
    (o : t) : result (t * bool) :=
  let keyCode := keyCode event in
  if (ctrlKey event || metaKey event) && includes [65; 67; 86; 88] keyCode
     || includes [9; 27; 13] keyCode
     || ((35 <=? keyCode) && (keyCode <=? 40))%nat
  then Ok (o, false)
  else if Nat.eqb keyCode 8 || Nat.eqb keyCode 46 then
    let start := selectionStart (input o) in
    let end_ := selectionEnd (input o) in
    let unmaskedValue := getUnmaskedValue o in
    cursorPos <- getCursorPosInUnmaskedValue start o ;;
    let maskData := lookupZ (masksData o) (activeMaskIndex o) in
    r <-
      (if Nat.eqb start end_ then
         if Nat.eqb keyCode 8 then
           prevDigitPos <- seekBackward maskData start ;;
           if (prevDigitPos >=? 0)%Z then
             cursorPos <-
               getCursorPosInUnmaskedValue (Z.to_nat prevDigitPos) o ;;
             Ok (sliceTo unmaskedValue cursorPos
                   ++ sliceFrom unmaskedValue (cursorPos + 1), cursorPos)
           else Ok (unmaskedValue, cursorPos)
         else if Nat.eqb keyCode 46 then
           m <- defined maskData ;;
           let nextDigitPos :=
             skipLiterals m (length (mask m) - start) start in
           if (nextDigitPos <? length (mask m))%nat then
             deleteIndex <- getCursorPosInUnmaskedValue nextDigitPos o ;;
             Ok (sliceTo unmaskedValue deleteIndex
                   ++ sliceFrom unmaskedValue (deleteIndex + 1), cursorPos)
           else Ok (unmaskedValue, cursorPos)
         else Ok (unmaskedValue, cursorPos)
       else
         a <- getCursorPosInUnmaskedValue start o ;;
         b <- getCursorPosInUnmaskedValue end_ o ;;
         cursorPos <- getCursorPosInUnmaskedValue start o ;;
         Ok (sliceTo unmaskedValue a ++ sliceFrom unmaskedValue b, cursorPos)) ;;
    let '(newUnmaskedValue, cursorPos) := r in
    o <- setValue userLanguages (JString newUnmaskedValue) o ;;
    o <- setCursorPositionInFormatted cursorPos o ;;
    Ok (o, true)
  else if (shiftKey event || (keyCode <? 48)%nat || (57 <? keyCode)%nat)
          && ((keyCode <? 96)%nat || (105 <? keyCode)%nat)
  then Ok (o, true)
  else Ok (o, false).

(** *** [constructor] *)

Definition constructor (doc : document) (userLanguages : list str)
    (inputElementOrSelector : target) (opts : UserOptions) : result t :=
  input <-
    match inputElementOrSelector with
    | Selector s => doc s
    | Element el => Ok (Some el)
    | OtherValue =>
      Throw (Error
        (js "Invalid input element or selector provided to PhoneNumberMask."))
    end ;;
  input <-
    match input with
    | Some el => Ok el
    | None => Throw (Error (js "Input element not found for PhoneNumberMask."))
    end ;;
  let options :=
    {| masks :=
         match userMasks opts with
         | Some ms => ms
         | None => [js "(##) #####-####"]
         end;
       messages :=
         match userMessages opts with
         | Some m => m
         | None => DEFAULT_MESSAGES
         end |} in
  masksData <- mapM parseMask (masks options) ;;
  let o :=
    {| input := input; options := options; masksData := masksData;
       activeMaskIndex := -1 |} in
  let initialValue := value input in
  match initialValue with
  | _ :: _ => setValue userLanguages (JString initialValue) o
  | [] => Ok o
  end.

End PhoneNumberMask.

(** ** [class MoneyMask]: the constructor *)

Module MoneyMask.

Record Options : Type := {
  decimal : str;
  thousands : str;
  precision : nat;
  prefix : str;
  allowNegative : bool;
  selectOnFocus : bool
}.

Record UserOptions : Type := {
  userDecimal : option str;
  userThousands : option str;
  userPrecision : option nat;
  userPrefix : option str;
  userAllowNegative : option bool;
  userSelectOnFocus : option bool
}.

(** The instance; a field that was never assigned is [None]. *)
Record t : Type := {
  input : option HTMLInputElement;
  options : option Options
}.

Definition orDefault {A : Type} (v : option A) (d : A) : A :=
  match v with
  | Some a => a
  | None => d
  end.

Definition constructor (doc : document) (inputElementOrSelector : target)
    (opts : UserOptions) : result t :=
  match inputElementOrSelector with
  | OtherValue => Ok {| input := None; options := None |}
  | Selector _ | Element _ =>
    input <-
      match inputElementOrSelector with
      | Selector s => doc s
      | Element el => Ok (Some el)
      | OtherValue => Ok None
      end ;;
    match input with
    | None => Ok {| input := None; options := None |}
    | Some el =>
      Ok {| input := Some el;
            options :=
              Some {| decimal := orDefault (userDecimal opts) (js ",");
                      thousands := orDefault (userThousands opts) (js ".");
                      precision := orDefault (userPrecision opts) 2;
                      prefix := orDefault (userPrefix opts) (js "€ ");
                      allowNegative := orDefault (userAllowNegative opts) true;
                      selectOnFocus :=
                        orDefault (userSelectOnFocus opts) false |} |}
    end
  end.

End MoneyMask.

(** ** Definitions used to state the properties *)

Module Spec.

(** Rendering as the specification words it: the walk over the template
    stops at the first placeholder for which no digit is left. *)
Fixpoint renderUntilExhausted (mask : str) (digits : str) : str :=
  match mask with
  | [] => []
  | c :: mask' =>
    if Ascii.eqb c "#" then
      match digits with
      | d :: digits' => d :: renderUntilExhausted mask' digits'
      | [] => []
      end
    else c :: renderUntilExhausted mask' digits
  end.

End Spec.

Module Engine.

Import PhoneNumberMask.

(** The compiled matcher of a mask, one atom per character. *)
Definition atomsOf (mask : str) : RegExp.t :=
  map (fun c => if Ascii.eqb c "#" then RegExp.DigitOpt else RegExp.Lit c) mask.

(** The pattern source [parseMask] accumulates between [^] and [$]. *)
Definition patternOf (mask : str) : str :=
  flat_map (fun c => if Ascii.eqb c "#" then js "(\d?)" else escapeRegExp [c])
    mask.

(** The number of placeholders of a mask. *)
Definition countPlaceholders (mask : str) : nat :=
  length (filter (fun c => Ascii.eqb c "#") mask).

(** The literal characters of a mask, in order. *)
Definition literalsOf (mask : str) : str :=
  filter (fun c => negb (Ascii.eqb c "#")) mask.

(** The placeholder records of a mask whose first character has index [i],
    with [k] placeholders before it. *)
Fixpoint placeholdersFrom (mask : str) (i k : nat) : list Placeholder :=
  match mask with
  | [] => []
  | c :: mask' =>
    if Ascii.eqb c "#" then
      {| index := i; charIndex := k |} :: placeholdersFrom mask' (S i) (S k)
    else placeholdersFrom mask' (S i) k
  end.

(** Rendering by recursion on the mask, consuming the digits. *)
Fixpoint fill (mask : str) (digits : str) : str :=
  match mask with
  | [] => []
  | c :: mask' =>
    if Ascii.eqb c "#" then
      match digits with
      | d :: digits' => d :: fill mask' digits'
      | [] => fill mask' []
      end
    else c :: fill mask' digits
  end.

(** A mask in which each placeholder is replaced by the given filling: a
    character, or nothing. *)
Fixpoint instantiate (mask : str) (fills : list (option ascii)) : str :=
  match mask with
  | [] => []
  | c :: mask' =>
    if Ascii.eqb c "#" then
      match fills with
      | Some d :: fills' => d :: instantiate mask' fills'
      | None :: fills' => instantiate mask' fills'
      | [] => instantiate mask' []
      end
    else c :: instantiate mask' fills
  end.

(** A filling of a placeholder: empty or one digit. *)
Definition digitOrEmpty (f : option ascii) : Prop :=
  match f with
  | Some d => isDigit d = true
  | None => True
  end.

Definition allDigits (s : str) : Prop := Forall (fun c => isDigit c = true) s.

(** The record [parseMask] returns for a mask. *)
Definition parsed (mask : str) : MaskData :=
  {| regex := atomsOf mask;
     placeholders := placeholdersFrom mask 0 0;
     mask := mask;
     placeholderChar := "#";
     digitCount := countPlaceholders mask |}.

(** A candidate is eligible when its render matches its own matcher. *)
Definition eligible (maskData : MaskData) (digits : str) : bool :=
  RegExp.test (regex maskData) (render maskData digits).

(** The active index is the sentinel or points into [masksData]. *)
Definition indexOk (o : t) : Prop :=
  activeMaskIndex o = (-1)%Z
  \/ (0 <= activeMaskIndex o < Z.of_nat (length (masksData o)))%Z.

(** The invariant of the selection loop after the masks [seen]: either no
    mask seen is eligible and nothing is recorded, or the record holds the
    first eligible mask of least distance to the number of digits. *)
Definition bestInv (digits : str) (seen : list MaskData) (best : Best) : Prop :=
  (bestMatchIndex best = (-1)%Z
   /\ bestMatchDiff best = None
   /\ bestFormatted best = []
   /\ forall j T, nth_error seen j = Some T -> eligible T digits = false)
  \/ (exists i T,
        bestMatchIndex best = Z.of_nat i
        /\ nth_error seen i = Some T
        /\ eligible T digits = true
        /\ bestMatchDiff best = Some (diffOf T digits)
        /\ bestFormatted best = render T digits
        /\ forall j T',
             nth_error seen j = Some T' ->
             eligible T' digits = true ->
             (diffOf T digits <= diffOf T' digits)%Z
             /\ (j < i -> (diffOf T digits < diffOf T' digits)%Z)).


(** The Backspace key, without modifiers. *)
Definition backspace : KeyboardEvent :=
  {| keyCode := 8; ctrlKey := false; metaKey := false; shiftKey := false |}.

(** The Delete key, without modifiers. *)
Definition deleteKey : KeyboardEvent :=
  {| keyCode := 46; ctrlKey := false; metaKey := false; shiftKey := false |}.

End Engine.

(** ** Sample data: the masks of the README *)

Module Sample.

Import PhoneNumberMask.

Definition mobileMask : str := js "(##) #####-####".
Definition landlineMask : str := js "(##) ####-####".

Definition mobile : MaskData := Engine.parsed mobileMask.
Definition landline : MaskData := Engine.parsed landlineMask.

Definition emptyField : HTMLInputElement :=
  {| value := []; selectionStart := 0; selectionEnd := 0;
     validationMessage := [] |}.

Definition noOptions : UserOptions :=
  {| userMasks := None; userMessages := None |}.

Definition english : list str := [js "en-US"; js "en"].

Definition moneyNoOptions : MoneyMask.UserOptions :=
  {| MoneyMask.userDecimal := None; MoneyMask.userThousands := None;
     MoneyMask.userPrecision := None; MoneyMask.userPrefix := None;
     MoneyMask.userAllowNegative := None;
     MoneyMask.userSelectOnFocus := None |}.

(** A page for the examples: the selectors [#phone] and [#money] are valid
    and find no element, and the empty selector is not valid.  The examples
    ask for no other selector; for those this page answers that nothing is
    found. *)
Definition noDocument : document :=
  fun s =>
    match s with
    | [] => Throw (DOMException (js "SyntaxError"))
    | _ :: _ => Ok None
    end.

(** An instance over a field showing [text], with the caret at [caret],
    the default options, the given masks and active index. *)
Definition instance (mds : list MaskData) (active : Z) (text : str)
    (caret : nat) : t :=
  {| input := {| value := text; selectionStart := caret;
                 selectionEnd := caret; validationMessage := [] |};
     options := {| masks := map mask mds; messages := DEFAULT_MESSAGES |};
     masksData := mds;
     activeMaskIndex := active |}.

End Sample.

(** ** Further definitions used to state properties *)

Module More.

Import PhoneNumberMask.

(** A template without digit characters: every digit of a render then
    comes from the digit sequence. *)
Definition noLiteralDigits (mask : str) : Prop :=
  Forall (fun c => isDigit c = false) mask.

(** A template without line breaks: a single-line field shows its renders
    as they are. *)
Definition noLineBreaks (mask : str) : Prop :=
  Forall (fun c => isLineBreak c = false) mask.

(** [s.replace(/\d/g, '')]: the characters of a display that are not
    digits. *)
Definition stripDigits (s : str) : str := filter (fun c => negb (isDigit c)) s.

(** The keys [handleKeyDown] lets through untouched: the clipboard and
    select-all chords, Tab, Escape, Enter, the navigation keys, the digit
    row without Shift and the numeric keypad. *)
Definition passesKeyFilter (event : KeyboardEvent) : bool :=
  let k := keyCode event in
  ((ctrlKey event || metaKey event) && includes [65; 67; 86; 88] k)
  || includes [9; 27; 13] k
  || ((35 <=? k) && (k <=? 40))%nat
  || (negb (shiftKey event) && (48 <=? k) && (k <=? 57))%nat
  || ((96 <=? k) && (k <=? 105))%nat.

(** An instance over a field showing [text] with the selection from [a]
    to [b], one mask list and its active index, and the default messages. *)
Definition selecting (mds : list MaskData) (active : Z) (text : str)
    (a b : nat) : t :=
  {| input := {| value := text; selectionStart := a; selectionEnd := b;
                 validationMessage := [] |};
     options := {| masks := map mask mds; messages := DEFAULT_MESSAGES |};
     masksData := mds;
     activeMaskIndex := active |}.

(** What every handler keeps of an instance. *)
Definition sameConfiguration (o o' : t) : Prop :=
  masksData o' = masksData o /\ options o' = options o.

(** [static getLocalizedMessage()] of [PhoneNumberMask]: the lookup of
    [getErrorMessage], over the built-in table. *)
Definition getLocalizedMessage (userLanguages : list str) : str :=
  match getErrorMessageLoop DEFAULT_MESSAGES userLanguages with
  | Some m => m
  | None =>
    match lookupKey DEFAULT_MESSAGES (js "en") with
    | Some m => m
    | None => []
    end
  end.

End More.

(** ** [class MoneyMask]: the [keydown] handler *)

Module MoneyMaskHandlers.

Import MoneyMask.

(** [c.toLowerCase()] for one code unit of the ASCII range. *)
Definition lowerChar (c : ascii) : ascii :=
  let n := nat_of_ascii c in
  if ((65 <=? n) && (n <=? 90))%nat then ascii_of_nat (n + 32) else c.

(** [s.toLowerCase()] *)
Definition toLowerCase (s : str) : str := map lowerChar s.

Fixpoint startsWith (s sub : str) : bool :=
  match sub with
  | [] => true
  | x :: sub' =>
    match s with
    | y :: s' => Ascii.eqb y x && startsWith s' sub'
    | [] => false
    end
  end.

(** [s.includes(sub)] *)
Fixpoint includesStr (s sub : str) : bool :=
  startsWith s sub
  || match s with
     | [] => false
     | _ :: s' => includesStr s' sub
     end.

(** The fields of the event that the handler reads; [targetValue] is
    [event.target.value]. *)
Record KeyboardEvent : Type := {
  key : str;
  keyCode : nat;
  ctrlKey : bool;
  metaKey : bool;
  shiftKey : bool;
  targetValue : str
}.

(** The result tells whether [event.preventDefault()] was called. *)
Definition handleKeyDown (event : KeyboardEvent) (m : MoneyMask.t)
  : result bool :=
  let key := key event in
  let keyCode := keyCode event in
  if PhoneNumberMask.includes [46; 8; 9; 27; 13] keyCode
     || (str_eqb (toLowerCase key) (js "a") && (ctrlKey event || metaKey event))
     || ((35 <=? keyCode) && (keyCode <=? 40))%nat
  then Ok false
  else if (str_eqb (toLowerCase key) (js "c")
           || str_eqb (toLowerCase key) (js "v")
           || str_eqb (toLowerCase key) (js "x"))
          && (ctrlKey event || metaKey event)
  then Ok false
  else if str_eqb key (js "-") || Nat.eqb keyCode 189 then
    opts <- defined (options m) ;;
    if negb (allowNegative opts) || includesStr (targetValue event) (js "-")
    then Ok true
    else Ok false
  else
    opts <- defined (options m) ;;
    if str_eqb key (decimal opts) then
      if includesStr (targetValue event) (decimal opts) then Ok true
      else Ok false
    else if (shiftKey event || (keyCode <? 48)%nat || (57 <? keyCode)%nat)
            && ((keyCode <? 96)%nat || (105 <? keyCode)%nat)
    then Ok true
    else Ok false.

(** The instance the constructor builds over an element with the default
    options. *)
Definition defaults (el : HTMLInputElement) : MoneyMask.t :=
  {| input := Some el;
     options :=
       Some {| decimal := js ","; thousands := js "."; precision := 2;
               prefix := js "€ "; allowNegative := true;
               selectOnFocus := false |} |}.

End MoneyMaskHandlers.

(** ** Properties *)

Module Facts.

Import PhoneNumberMask Engine.

(** *** The result monad *)

Lemma bind_Ok {A B : Type} (a : A) (k : A -> result B) :
  bind (Ok a) k = k a.
Proof. reflexivity. Qed.

Lemma mapM_Ok {A B : Type} (f : A -> result B) (g : A -> B) (l : list A) :
  (forall x, f x = Ok (g x)) -> mapM f l = Ok (map g l).
Proof.
  intros Hf. induction l as [| x l IH]; simpl.
  - reflexivity.
  - rewrite Hf, IH. reflexivity.
Qed.

(** *** [parseMask] *)

Lemma special_is_syntax (c : ascii) : RegExp.syntaxChar c = specialChar c.
Proof. reflexivity. Qed.

Lemma parseAtoms_escaped (c : ascii) (rest : str) :
  RegExp.parseAtoms (escapeRegExp [c] ++ rest)
  = RegExp.consAtom (RegExp.Lit c) (RegExp.parseAtoms rest).
Proof.
  unfold escapeRegExp. cbn [flat_map app].
  destruct (specialChar c) eqn:E.
  - cbn [app]. cbn [RegExp.parseAtoms].
    change (Ascii.eqb "\" "$") with false.
    change (Ascii.eqb "\" "\") with true.
    cbv iota. rewrite special_is_syntax, E. reflexivity.
  - cbn [app]. cbn [RegExp.parseAtoms].
    rewrite special_is_syntax, E.
    unfold specialChar in E. cbn [existsb] in E.
    repeat (apply orb_false_iff in E; destruct E as [? E]).
    repeat match goal with H : Ascii.eqb c _ = false |- _ =>
      rewrite H; clear H end.
    reflexivity.
Qed.

Lemma parseAtoms_group (rest : str) :
  RegExp.parseAtoms (js "(\d?)" ++ rest)
  = RegExp.consAtom RegExp.DigitOpt (RegExp.parseAtoms rest).
Proof. reflexivity. Qed.

Lemma parseAtoms_pattern (m : str) :
  RegExp.parseAtoms (patternOf m ++ js "$") = Ok (atomsOf m).
Proof.
  induction m as [| c m IH]; [reflexivity |].
  unfold patternOf, atomsOf. cbn [flat_map map].
  fold (patternOf m). fold (atomsOf m).
  rewrite <- app_assoc.
  destruct (Ascii.eqb c "#").
  - rewrite parseAtoms_group, IH. reflexivity.
  - rewrite parseAtoms_escaped, IH. reflexivity.
Qed.

Lemma parseLoop_spec (m : str) : forall i rs phs ci dc,
  parseLoop m i rs phs ci dc
  = (rs ++ patternOf m, phs ++ placeholdersFrom m i ci,
     dc + countPlaceholders m).
Proof.
  induction m as [| c m IH]; intros i rs phs ci dc.
  - cbn. rewrite !app_nil_r, Nat.add_0_r. reflexivity.
  - cbn [parseLoop]. unfold patternOf, countPlaceholders.
    cbn [flat_map placeholdersFrom filter].
    fold (patternOf m).
    destruct (Ascii.eqb c "#"); rewrite IH.
    + rewrite <- !app_assoc. cbn [length app].
      unfold countPlaceholders. f_equal. lia.
    + rewrite <- !app_assoc. reflexivity.
Qed.

(** [parseMask] never throws, and returns [parsed]. *)
Lemma parseMask_parsed (m : str) : parseMask m = Ok (parsed m).
Proof.
  unfold parseMask. rewrite parseLoop_spec.
  cbn [app js list_ascii_of_string RegExp.compile].
  change (Ascii.eqb "^" "^") with true. cbv iota.
  change (list_ascii_of_string "$") with (js "$").
  rewrite parseAtoms_pattern. reflexivity.
Qed.

Lemma mapM_parseMask (ms : list str) :
  mapM parseMask ms = Ok (map parsed ms).
Proof. apply mapM_Ok. exact parseMask_parsed. Qed.

Ltac parsed_inv H :=
  rewrite parseMask_parsed in H; injection H as H; subst.

(** *** Rendering *)

Lemma skipn_nth_error {A : Type} (l : list A) : forall n d,
  nth_error l n = Some d -> skipn n l = d :: skipn (S n) l.
Proof.
  induction l as [| x l IH]; intros [| n] d H; simpl in *; try discriminate.
  - injection H as ->. reflexivity.
  - apply IH. exact H.
Qed.

Lemma renderLoop_fill (m : str) : forall ds di acc,
  renderLoop "#" m ds di acc = acc ++ fill m (skipn di ds).
Proof.
  induction m as [| c m IH]; intros ds di acc; cbn [renderLoop fill].
  - rewrite app_nil_r. reflexivity.
  - destruct (Ascii.eqb c "#").
    + destruct (nth_error ds di) as [d |] eqn:E.
      * rewrite (skipn_nth_error _ _ _ E), IH, <- app_assoc. reflexivity.
      * apply nth_error_None in E.
        rewrite (skipn_all2 ds E), IH, (skipn_all2 ds E). reflexivity.
    + rewrite IH, <- app_assoc. reflexivity.
Qed.

Lemma render_parsed (m ds : str) : render (parsed m) ds = fill m ds.
Proof. unfold render. cbn. apply renderLoop_fill. Qed.

Lemma fill_nil (m : str) : fill m [] = literalsOf m.
Proof.
  induction m as [| c m IH]; [reflexivity |].
  unfold literalsOf. cbn [fill filter].
  destruct (Ascii.eqb c "#"); cbn [negb]; [exact IH |].
  f_equal. exact IH.
Qed.

Lemma fill_length (m : str) : forall ds,
  length (fill m ds) + (countPlaceholders m - length ds) = length m.
Proof.
  unfold countPlaceholders.
  induction m as [| c m IH]; intros ds; [reflexivity |].
  cbn [fill filter]. destruct (Ascii.eqb c "#"); cbn [length].
  - destruct ds as [| d ds]; cbn [length].
    + specialize (IH []). cbn [length] in IH. lia.
    + specialize (IH ds). lia.
  - specialize (IH ds). lia.
Qed.

(** Every render matches the matcher of its own mask. *)
Lemma test_fill (m : str) : forall ds,
  allDigits ds -> RegExp.test (atomsOf m) (fill m ds) = true.
Proof.
  induction m as [| c m IH]; intros ds Hds; [reflexivity |].
  unfold atomsOf. cbn [map fill]. fold (atomsOf m).
  destruct (Ascii.eqb c "#").
  - destruct ds as [| d ds]; cbn [RegExp.test].
    + rewrite IH by constructor. apply orb_true_r.
    + inversion Hds as [| ? ? Hd Hds']; subst.
      rewrite Hd, IH by assumption. reflexivity.
  - cbn [RegExp.test]. rewrite Ascii.eqb_refl, IH by assumption. reflexivity.
Qed.

Lemma eligible_parsed (m ds : str) :
  allDigits ds -> eligible (parsed m) ds = true.
Proof.
  intros H. unfold eligible. rewrite render_parsed. apply test_fill, H.
Qed.

Lemma stripNonDigits_allDigits (s : str) : allDigits (stripNonDigits s).
Proof.
  unfold allDigits, stripNonDigits. apply Forall_forall.
  intros c Hc. apply filter_In in Hc. apply Hc.
Qed.

(** Where the specification's walk stops, and what the code appends after
    that point. *)
Lemma fill_partial (m : str) : forall ds i k,
  length ds < countPlaceholders m ->
  exists p,
    nth_error (placeholdersFrom m i k) (length ds)
      = Some {| index := i + p; charIndex := k + length ds |}
    /\ length (Spec.renderUntilExhausted m ds) = p
    /\ p < length m
    /\ fill m ds = Spec.renderUntilExhausted m ds ++ literalsOf (skipn p m).
Proof.
  unfold countPlaceholders.
  induction m as [| c m IH]; intros ds i k Hlen; [cbn in Hlen; lia |].
  cbn [filter] in Hlen.
  cbn [placeholdersFrom Spec.renderUntilExhausted fill].
  destruct (Ascii.eqb c "#") eqn:Ec.
  - destruct ds as [| d ds].
    + exists 0. cbn [length nth_error skipn app].
      rewrite !Nat.add_0_r. repeat split; [lia |].
      rewrite fill_nil. unfold literalsOf. cbn [filter]. rewrite Ec.
      reflexivity.
    + cbn [length] in Hlen.
      destruct (IH ds (S i) (S k)) as (p & Hn & Hl & Hp & Hf); [lia |].
      exists (S p). cbn [length nth_error skipn].
      split; [| split; [| split]].
      * rewrite Hn. do 2 f_equal; lia.
      * rewrite Hl. reflexivity.
      * lia.
      * rewrite Hf. reflexivity.
  - destruct (IH ds (S i) k Hlen) as (p & Hn & Hl & Hp & Hf).
    exists (S p). cbn [length skipn].
    split; [| split; [| split]].
    + rewrite Hn. do 2 f_equal; lia.
    + rewrite Hl. reflexivity.
    + lia.
    + rewrite Hf. reflexivity.
Qed.

(** *** The matcher *)

Lemma instantiate_length (m : str) : forall fills,
  length (instantiate m fills) <= length m
  /\ length m <= length (instantiate m fills) + countPlaceholders m.
Proof.
  unfold countPlaceholders.
  induction m as [| c m IH]; intros fills; [cbn; lia |].
  cbn [instantiate filter]. destruct (Ascii.eqb c "#"); cbn [length].
  - destruct fills as [| [d |] fills]; cbn [length].
    + specialize (IH []). lia.
    + specialize (IH fills). lia.
    + specialize (IH fills). lia.
  - specialize (IH fills). lia.
Qed.

Lemma test_instantiate (m : str) : forall s,
  RegExp.test (atomsOf m) s = true
  <-> exists fills,
        length fills = countPlaceholders m
        /\ Forall digitOrEmpty fills
        /\ s = instantiate m fills.
Proof.
  unfold countPlaceholders.
  induction m as [| c m IH]; intros s.
  - cbn. split.
    + intros H. exists []. destruct s; [auto | discriminate].
    + intros (fills & _ & _ & ->). reflexivity.
  - unfold atomsOf. cbn [map filter instantiate]. fold (atomsOf m).
    destruct (Ascii.eqb c "#") eqn:Ec; cbn [RegExp.test length].
    + split.
      * intros H. apply orb_true_iff in H. destruct H as [H | H].
        -- destruct s as [| x s]; [discriminate |].
           apply andb_true_iff in H. destruct H as [Hx H].
           apply IH in H. destruct H as (fills & Hl & Hf & ->).
           exists (Some x :: fills). cbn [length].
           repeat split; [lia | constructor; assumption].
        -- apply IH in H. destruct H as (fills & Hl & Hf & ->).
           exists (None :: fills). cbn [length].
           repeat split; [lia | constructor; [exact I | assumption]].
      * intros (fills & Hl & Hf & ->).
        destruct fills as [| f fills]; [discriminate |].
        cbn [length] in Hl. inversion Hf as [| ? ? Hd Hf']; subst.
        assert (Hrest : RegExp.test (atomsOf m) (instantiate m fills) = true).
        { apply IH. exists fills. repeat split; [lia | assumption]. }
        destruct f as [d |].
        -- cbn in Hd. rewrite Hd, Hrest. reflexivity.
        -- rewrite Hrest. apply orb_true_r.
    + split.
      * intros H. destruct s as [| x s]; [discriminate |].
        apply andb_true_iff in H. destruct H as [Hx H].
        apply Ascii.eqb_eq in Hx. subst x.
        apply IH in H. destruct H as (fills & Hl & Hf & ->).
        exists fills. repeat split; assumption.
      * intros (fills & Hl & Hf & ->).
        rewrite Ascii.eqb_refl. apply IH.
        exists fills. repeat split; assumption.
Qed.

(** *** Claims on rendering and matching *)

Import Sample.

Lemma allDigits_one : allDigits (js "1").
Proof. repeat constructor. Qed.

(** C1, as amended.  When the digits run out before the placeholders do
    ([len(D) < digitCount]), the walk over the template does not stop: up
    to the position [p] of the first unfilled placeholder the render is the
    filled template prefix (what the specification's truncating walk
    yields, of length [p]), and after it the render goes on with every
    literal character of the rest of the template, the unfilled
    placeholders contributing nothing.  Its length is the template's
    length minus the number of unfilled placeholders. *)
Theorem render_partial_appends_trailing_literals :
  forall (t : str) (T : MaskData) (D : str),
    parseMask t = Ok T ->
    length D < digitCount T ->
    exists p,
      nth_error (placeholders T) (length D)
        = Some {| index := p; charIndex := length D |}
      /\ length (Spec.renderUntilExhausted (mask T) D) = p
      /\ render T D
         = Spec.renderUntilExhausted (mask T) D ++ literalsOf (skipn p (mask T))
      /\ length (render T D) = length (mask T) - (digitCount T - length D).
Proof.
  intros t T D HT Hlen. parsed_inv HT. cbn [digitCount parsed] in Hlen.
  destruct (fill_partial t D 0 0 Hlen) as (p & Hn & Hl & Hp & Hf).
  exists p. cbn [placeholders mask digitCount parsed].
  rewrite render_parsed. repeat split; try assumption.
  pose proof (fill_length t D). lia.
Qed.

Lemma render_partial_appends_trailing_literals_witness :
  parseMask mobileMask = Ok mobile
  /\ length (js "1") < digitCount mobile
  /\ exists p,
       nth_error (placeholders mobile) (length (js "1"))
         = Some {| index := p; charIndex := length (js "1") |}
       /\ length (Spec.renderUntilExhausted (mask mobile) (js "1")) = p
       /\ render mobile (js "1")
          = Spec.renderUntilExhausted (mask mobile) (js "1")
            ++ literalsOf (skipn p (mask mobile))
       /\ length (render mobile (js "1"))
          = length (mask mobile) - (digitCount mobile - length (js "1")).
Proof.
  split; [reflexivity |]. split; [vm_compute; lia |].
  apply (render_partial_appends_trailing_literals mobileMask mobile (js "1")).
  - reflexivity.
  - vm_compute; lia.
Defined.

(** C1, as stated, fails: with one digit the render of [(##) #####-####]
    is [(1) -], not the template prefix [(1] that ends at the first
    unfilled placeholder. *)
Lemma render_partial_is_not_truncated :
  parseMask mobileMask = Ok mobile
  /\ length (js "1") < digitCount mobile
  /\ render mobile (js "1") = js "(1) -"
  /\ Spec.renderUntilExhausted (mask mobile) (js "1") = js "(1"
  /\ render mobile (js "1") <> Spec.renderUntilExhausted (mask mobile) (js "1").
Proof.
  split; [reflexivity |]. split; [vm_compute; lia |].
  split; [reflexivity |]. split; [reflexivity |].
  vm_compute. discriminate.
Qed.

(** C2, as amended.  The render of a parsed template against any digit
    sequence matches the template's own matcher, whatever the number of
    digits: every candidate is eligible, also when [len(D) < digitCount]. *)
Theorem render_eligible_for_any_digit_count :
  forall (t : str) (T : MaskData) (D : str),
    parseMask t = Ok T ->
    allDigits D ->
    RegExp.test (regex T) (render T D) = true.
Proof.
  intros t T D HT HD. parsed_inv HT. apply (eligible_parsed t D HD).
Qed.

Lemma render_eligible_for_any_digit_count_witness :
  parseMask landlineMask = Ok landline
  /\ allDigits (js "1")
  /\ RegExp.test (regex landline) (render landline (js "1")) = true.
Proof.
  split; [reflexivity |]. split; [exact allDigits_one |].
  apply (render_eligible_for_any_digit_count landlineMask landline (js "1")).
  - reflexivity.
  - exact allDigits_one.
Defined.

(** C2, as stated, fails: one digit is fewer than the eleven of
    [(##) #####-####], and yet its render matches the matcher. *)
Lemma partial_render_matches :
  parseMask mobileMask = Ok mobile
  /\ allDigits (js "1")
  /\ RegExp.test (regex mobile) (render mobile (js "1")) = true
  /\ ~ (digitCount mobile <= length (js "1")).
Proof.
  split; [reflexivity |]. split; [exact allDigits_one |].
  split; [reflexivity |]. vm_compute. lia.
Qed.

(** C5, as amended.  The matcher of [parse(t)] accepts exactly the strings
    obtained from [t] by keeping each literal character and replacing each
    placeholder by nothing or by one digit; an accepted string is therefore
    at most as long as [t] and at least [len(t) - digitCount] long. *)
Theorem matcher_accepts_instances_of_template :
  forall (t : str) (T : MaskData) (s : str),
    parseMask t = Ok T ->
    (RegExp.test (regex T) s = true
     <-> exists fills,
           length fills = digitCount T
           /\ Forall digitOrEmpty fills
           /\ s = instantiate t fills)
    /\ (RegExp.test (regex T) s = true ->
        length t - digitCount T <= length s <= length t).
Proof.
  intros t T s HT. parsed_inv HT. cbn [regex digitCount parsed].
  split; [apply test_instantiate |].
  intros H. apply test_instantiate in H.
  destruct H as (fills & _ & _ & ->).
  pose proof (instantiate_length t fills). lia.
Qed.

Lemma matcher_accepts_instances_of_template_witness :
  parseMask mobileMask = Ok mobile
  /\ (RegExp.test (regex mobile) (js "(11) 9999-9999") = true
      <-> exists fills,
            length fills = digitCount mobile
            /\ Forall digitOrEmpty fills
            /\ js "(11) 9999-9999" = instantiate mobileMask fills)
  /\ (RegExp.test (regex mobile) (js "(11) 9999-9999") = true ->
      length mobileMask - digitCount mobile
      <= length (js "(11) 9999-9999") <= length mobileMask).
Proof.
  split; [reflexivity |].
  apply (matcher_accepts_instances_of_template
           mobileMask mobile (js "(11) 9999-9999")).
  reflexivity.
Defined.

(** C5, as stated, fails: the matcher of the 15-character template
    [(##) #####-####] accepts the 4-character string [() -]. *)
Lemma matcher_accepts_shorter_string :
  parseMask mobileMask = Ok mobile
  /\ RegExp.test (regex mobile) (js "() -") = true
  /\ length (js "() -") <> length mobileMask.
Proof.
  split; [reflexivity |]. split; [reflexivity |]. vm_compute. lia.
Qed.

(** *** Best-match selection *)

Lemma nth_error_snoc {A : Type} (l : list A) (x y : A) (j : nat) :
  nth_error (l ++ [x]) j = Some y ->
  (j < length l /\ nth_error l j = Some y) \/ (j = length l /\ y = x).
Proof.
  intros H. destruct (Nat.lt_ge_cases j (length l)) as [Hlt | Hge].
  - left. rewrite nth_error_app1 in H by assumption. auto.
  - right. rewrite nth_error_app2 in H by assumption.
    destruct (j - length l) as [| d] eqn:E; cbn in H.
    + injection H as <-. split; [lia | reflexivity].
    + destruct d; discriminate.
Qed.

Lemma nth_error_snoc_last {A : Type} (l : list A) (x : A) :
  nth_error (l ++ [x]) (length l) = Some x.
Proof.
  rewrite nth_error_app2 by lia. rewrite Nat.sub_diag. reflexivity.
Qed.

(** One iteration of the selection loop keeps the invariant. *)
Lemma bestInv_step (D : str) (seen : list MaskData) (md : MaskData) (b : Best) :
  bestInv D seen b ->
  bestInv D (seen ++ [md])
    (if RegExp.test (regex md) (render md D) then
       if ltDiff (diffOf md D) (bestMatchDiff b) then
         {| bestMatchIndex := Z.of_nat (length seen);
            bestMatchDiff := Some (diffOf md D);
            bestFormatted := render md D |}
       else b
     else b).
Proof.
  intros Hinv.
  destruct (RegExp.test (regex md) (render md D)) eqn:Hel.
  - destruct (ltDiff (diffOf md D) (bestMatchDiff b)) eqn:Hlt.
    + (* the new mask is strictly closer than everything seen *)
      right. exists (length seen), md. cbn.
      split; [reflexivity |]. split; [apply nth_error_snoc_last |].
      split; [exact Hel |]. split; [reflexivity |]. split; [reflexivity |].
      intros j T' HjT HeT'.
      destruct (nth_error_snoc _ _ _ _ HjT) as [[Hj HT'] | [Hj ->]];
        [| split; lia].
      destruct Hinv
        as [(_ & _ & _ & Hnone) | (i & T & _ & _ & _ & Hd & _ & Hmin)].
      * rewrite (Hnone _ _ HT') in HeT'. discriminate.
      * rewrite Hd in Hlt. cbn in Hlt. apply Z.ltb_lt in Hlt.
        destruct (Hmin _ _ HT' HeT'). split; [lia | intros _; lia].
    + (* the recorded mask stays: the new one is not strictly closer *)
      destruct Hinv
        as [(_ & Hd & _) | (i & T & Hi & HT & HeT & Hd & Hf & Hmin)].
      * rewrite Hd in Hlt. discriminate.
      * right. exists i, T.
        assert (Hilt : i < length seen).
        { apply nth_error_Some. rewrite HT. discriminate. }
        rewrite Hd in Hlt. cbn in Hlt. apply Z.ltb_ge in Hlt.
        split; [exact Hi |].
        split; [rewrite nth_error_app1 by assumption; exact HT |].
        split; [exact HeT |]. split; [exact Hd |]. split; [exact Hf |].
        intros j T' HjT HeT'.
        destruct (nth_error_snoc _ _ _ _ HjT) as [[_ HT'] | [Hj ->]].
        -- apply (Hmin _ _ HT' HeT').
        -- split; [exact Hlt | intros Hji; lia].
  - (* the new mask is not eligible *)
    destruct Hinv
      as [(Hi & Hd & Hf & Hnone) | (i & T & Hi & HT & HeT & Hd & Hf & Hmin)].
    + left. split; [exact Hi |]. split; [exact Hd |]. split; [exact Hf |].
      intros j T' HjT.
      destruct (nth_error_snoc _ _ _ _ HjT) as [[_ HT'] | [_ ->]].
      * apply (Hnone _ _ HT').
      * exact Hel.
    + right. exists i, T.
      assert (Hilt : i < length seen).
      { apply nth_error_Some. rewrite HT. discriminate. }
      split; [exact Hi |].
      split; [rewrite nth_error_app1 by assumption; exact HT |].
      split; [exact HeT |]. split; [exact Hd |]. split; [exact Hf |].
      intros j T' HjT HeT'.
      destruct (nth_error_snoc _ _ _ _ HjT) as [[_ HT'] | [_ ->]].
      * apply (Hmin _ _ HT' HeT').
      * unfold eligible in HeT'. rewrite Hel in HeT'. discriminate.
Qed.

Lemma selectLoop_inv (D : str) (rest : list MaskData) :
  forall seen b,
    bestInv D seen b ->
    bestInv D (seen ++ rest) (selectLoop rest (Z.of_nat (length seen)) D b).
Proof.
  induction rest as [| md rest IH]; intros seen b Hinv.
  - rewrite app_nil_r. exact Hinv.
  - cbn [selectLoop].
    replace (seen ++ md :: rest) with ((seen ++ [md]) ++ rest)
      by (rewrite <- app_assoc; reflexivity).
    replace (Z.of_nat (length seen) + 1)%Z
      with (Z.of_nat (length (seen ++ [md])))
      by (rewrite length_app; cbn [length]; lia).
    apply IH. apply bestInv_step. exact Hinv.
Qed.

Lemma selectBestMask_inv (mds : list MaskData) (D : str) :
  bestInv D mds (selectBestMask mds D).
Proof.
  apply (selectLoop_inv D mds [] _).
  left. repeat split. intros [| j] T H; discriminate.
Qed.

Lemma mapM_parseMask_inv (ts : list str) (mds : list MaskData) :
  mapM parseMask ts = Ok mds -> mds = map parsed ts.
Proof. rewrite mapM_parseMask. intros H. injection H as <-. reflexivity. Qed.

Lemma nth_error_parsed (ts : list str) (j : nat) (T : MaskData) :
  nth_error (map parsed ts) j = Some T -> exists t, T = parsed t.
Proof.
  rewrite nth_error_map. destruct (nth_error ts j) as [t |]; cbn.
  - intros H. injection H as <-. exists t. reflexivity.
  - discriminate.
Qed.

(** With at least one parsed candidate the loop always records a mask. *)
Lemma selectBestMask_parsed (ts : list str) (D : str) :
  ts <> [] ->
  allDigits D ->
  exists i T,
    bestMatchIndex (selectBestMask (map parsed ts) D) = Z.of_nat i
    /\ nth_error (map parsed ts) i = Some T
    /\ eligible T D = true
    /\ bestFormatted (selectBestMask (map parsed ts) D) = render T D
    /\ forall j T',
         nth_error (map parsed ts) j = Some T' ->
         eligible T' D = true ->
         (diffOf T D <= diffOf T' D)%Z
         /\ (j < i -> (diffOf T D < diffOf T' D)%Z).
Proof.
  intros Hne HD.
  destruct (selectBestMask_inv (map parsed ts) D)
    as [(_ & _ & _ & Hnone) | (i & T & Hi & HT & He & _ & Hf & Hmin)].
  - destruct ts as [| t ts]; [contradiction |].
    specialize (Hnone 0 (parsed t) eq_refl).
    rewrite eligible_parsed in Hnone by assumption. discriminate.
  - exists i, T. auto.
Qed.

(** *** Operations that read [masksData[activeMaskIndex]] *)

Lemma lookupZ_of_nat {A : Type} (l : list A) (i : nat) :
  lookupZ l (Z.of_nat i) = nth_error l i.
Proof.
  unfold lookupZ. destruct (Z.ltb_spec (Z.of_nat i) 0); [lia |].
  rewrite Nat2Z.id. reflexivity.
Qed.

Lemma lookupZ_in_range {A : Type} (l : list A) (a : Z) :
  (0 <= a < Z.of_nat (length l))%Z -> exists x, lookupZ l a = Some x.
Proof.
  intros H. unfold lookupZ. destruct (Z.ltb_spec a 0); [lia |].
  destruct (nth_error l (Z.to_nat a)) as [x |] eqn:E; [eauto |].
  apply nth_error_None in E. lia.
Qed.

Lemma of_nat_not_sentinel (i : nat) : (Z.of_nat i =? -1)%Z = false.
Proof. apply Z.eqb_neq. lia. Qed.

Lemma validateInput_ok (langs : list str) (o : t) :
  indexOk o ->
  exists msg,
    validateInput langs o = Ok (withInput (setCustomValidity msg (input o)) o).
Proof.
  intros Hok. unfold validateInput.
  destruct (activeMaskIndex o =? -1)%Z eqn:E; cbn [negb].
  - eauto.
  - destruct Hok as [Hs | Hr]; [apply Z.eqb_neq in E; contradiction |].
    destruct (lookupZ_in_range _ _ Hr) as [md ->]. cbn [defined bind].
    destruct (_ && _); eauto.
Qed.

Lemma adjustLoop_ok (md : MaskData) : forall n pos,
  exists p, adjustLoop (Some md) n pos = Ok p.
Proof.
  induction n as [| n IH]; intros pos; cbn [adjustLoop defined bind].
  - eauto.
  - destruct (isPlaceholderAt md pos); [eauto | apply IH].
Qed.

Lemma adjustCursorPosition_ok (o : t) :
  indexOk o ->
  exists a b,
    adjustCursorPosition o = Ok (withInput (setSelectionRange a b (input o)) o)
    \/ adjustCursorPosition o = Ok o.
Proof.
  intros Hok. unfold adjustCursorPosition.
  destruct (activeMaskIndex o =? -1)%Z eqn:E; cbn [negb].
  - exists 0, 0. auto.
  - destruct Hok as [Hs | Hr]; [apply Z.eqb_neq in E; contradiction |].
    destruct (lookupZ_in_range _ _ Hr) as [md ->].
    destruct (adjustLoop_ok md
                (length (value (input o)) - selectionStart (input o))
                (selectionStart (input o))) as [p ->].
    cbn [bind]. exists p, p. auto.
Qed.

(** The selection never leaves the index dangling. *)
Lemma selectBestMask_index (mds : list MaskData) (D : str) :
  bestMatchIndex (selectBestMask mds D) = (-1)%Z
  \/ exists i T,
       bestMatchIndex (selectBestMask mds D) = Z.of_nat i
       /\ nth_error mds i = Some T.
Proof.
  destruct (selectBestMask_inv mds D)
    as [(Hi & _) | (i & T & Hi & HT & _)]; [auto | eauto].
Qed.

(** Selection, display and validation never throw, whatever the masks. *)
Lemma applyBestMask_total (langs : list str) (D : str) (o : t) :
  exists o',
    applyBestMask langs D o = Ok o'
    /\ indexOk o'
    /\ masksData o' = masksData o
    /\ activeMaskIndex o' = bestMatchIndex (selectBestMask (masksData o) D).
Proof.
  unfold applyBestMask. cbn [masksData withActiveMaskIndex].
  destruct (selectBestMask_index (masksData o) D) as [Hi | (i & T & Hi & HT)].
  - rewrite Hi, Z.eqb_refl. cbn [negb bind].
    match goal with |- context [validateInput _ ?x] =>
      destruct (validateInput_ok langs x) as [msg ->] end.
    + left. reflexivity.
    + eexists. repeat split. left. reflexivity.
  - rewrite Hi, of_nat_not_sentinel, lookupZ_of_nat, HT. cbn [negb defined bind].
    match goal with |- context [validateInput _ ?x] =>
      destruct (validateInput_ok langs x) as [msg ->] end.
    + right. cbn. split; [lia |]. apply Nat2Z.inj_lt.
      apply nth_error_Some. rewrite HT. discriminate.
    + eexists. repeat split. right. cbn. split; [lia |].
      apply Nat2Z.inj_lt. apply nth_error_Some. rewrite HT. discriminate.
Qed.

Lemma setValue_total (langs : list str) (v : jsval) (o : t) :
  exists o', setValue langs v o = Ok o' /\ indexOk o'
             /\ masksData o' = masksData o.
Proof.
  assert (Hreset : exists o',
            validateInput langs
              (withActiveMaskIndex (-1) (withInput (setValueAttr [] (input o)) o))
            = Ok o' /\ indexOk o' /\ masksData o' = masksData o).
  { match goal with |- context [validateInput _ ?x] =>
      destruct (validateInput_ok langs x) as [msg ->] end.
    - left. reflexivity.
    - eexists. repeat split. left. reflexivity. }
  destruct v as [| | s]; cbn [setValue]; try exact Hreset.
  destruct s as [| c s]; [exact Hreset |].
  destruct (applyBestMask_total langs (stripNonDigits (c :: s)) o)
    as (o' & -> & Hok & Hm & _).
  eauto.
Qed.

Lemma handleInput_total (langs : list str) (inputType : str) (o : t) :
  exists o', handleInput langs inputType o = Ok o'.
Proof.
  unfold handleInput. destruct (_ || _); [eauto |].
  destruct (applyBestMask_total langs (stripNonDigits (value (input o))) o)
    as (o' & -> & Hok & _).
  cbn [bind]. destruct (adjustCursorPosition_ok o' Hok) as (a & b & [-> | ->]);
    eauto.
Qed.

(** *** Claims on selection *)

(** C3.  For a non-empty list of candidate templates and a digit sequence,
    the selection loop returns, among the candidates whose render matches
    their own matcher, the one of least [abs(digitCount - len(D))], the
    first such in list order on ties, together with its render.  For the
    candidates [(##) #####-####] and [(##) ####-####], eleven digits select
    the first template and ten digits the second. *)
Theorem selection_picks_closest_first_candidate :
  (forall (ts : list str) (mds : list MaskData) (D : str),
      ts <> [] ->
      mapM parseMask ts = Ok mds ->
      allDigits D ->
      exists i T,
        bestMatchIndex (selectBestMask mds D) = Z.of_nat i
        /\ nth_error mds i = Some T
        /\ eligible T D = true
        /\ bestFormatted (selectBestMask mds D) = render T D
        /\ forall j T',
             nth_error mds j = Some T' ->
             eligible T' D = true ->
             (diffOf T D <= diffOf T' D)%Z
             /\ (j < i -> (diffOf T D < diffOf T' D)%Z))
  /\ mapM parseMask [mobileMask; landlineMask] = Ok [mobile; landline]
  /\ (bestMatchIndex (selectBestMask [mobile; landline] (js "11999999999"))
        = 0%Z
      /\ bestFormatted (selectBestMask [mobile; landline] (js "11999999999"))
         = js "(11) 99999-9999")
  /\ (bestMatchIndex (selectBestMask [mobile; landline] (js "1199999999"))
        = 1%Z
      /\ bestFormatted (selectBestMask [mobile; landline] (js "1199999999"))
         = js "(11) 9999-9999")
  /\ (exists o,
        setValue english (JString (js "1199999999"))
          (instance [mobile; landline] (-1) [] 0) = Ok o
        /\ activeMaskIndex o = 1%Z
        /\ value (input o) = js "(11) 9999-9999").
Proof.
  split; [| split; [| split; [| split]]].
  - intros ts mds D Hne Hm HD. apply mapM_parseMask_inv in Hm. subst mds.
    apply selectBestMask_parsed; assumption.
  - reflexivity.
  - split; reflexivity.
  - split; reflexivity.
  - eexists. split; [vm_compute; reflexivity |]. split; reflexivity.
Qed.

Lemma selection_picks_closest_first_candidate_witness :
  [mobileMask; landlineMask] <> []
  /\ mapM parseMask [mobileMask; landlineMask] = Ok [mobile; landline]
  /\ allDigits (js "1")
  /\ exists i T,
       bestMatchIndex (selectBestMask [mobile; landline] (js "1")) = Z.of_nat i
       /\ nth_error [mobile; landline] i = Some T
       /\ eligible T (js "1") = true
       /\ bestFormatted (selectBestMask [mobile; landline] (js "1"))
          = render T (js "1")
       /\ forall j T',
            nth_error [mobile; landline] j = Some T' ->
            eligible T' (js "1") = true ->
            (diffOf T (js "1") <= diffOf T' (js "1"))%Z
            /\ (j < i -> (diffOf T (js "1") < diffOf T' (js "1"))%Z).
Proof.
  split; [discriminate |]. split; [reflexivity |].
  split; [exact allDigits_one |].
  apply (proj1 selection_picks_closest_first_candidate
           [mobileMask; landlineMask] [mobile; landline] (js "1")).
  - discriminate.
  - reflexivity.
  - exact allDigits_one.
Defined.

(** C10.  The string the rendering loop produces for a parsed template and
    any digit sequence (empty, short or surplus) matches the template's own
    matcher; hence with a non-empty candidate list every render-and-select
    pass records a candidate, and [handleInput] and [setValue] leave an
    active template (an index other than -1) whenever they run the pass. *)
Theorem render_matches_and_selection_is_never_none :
  (forall (t : str) (T : MaskData) (D : str),
      parseMask t = Ok T ->
      allDigits D ->
      RegExp.test (regex T) (render T D) = true)
  /\ (forall (ts : list str) (mds : list MaskData) (D : str),
        ts <> [] ->
        mapM parseMask ts = Ok mds ->
        allDigits D ->
        bestMatchIndex (selectBestMask mds D) <> (-1)%Z)
  /\ (forall (langs : list str) (ts : list str) (inputType : str) (o : t),
        ts <> [] ->
        mapM parseMask ts = Ok (masksData o) ->
        str_eqb inputType (js "deleteContentBackward")
        || str_eqb inputType (js "deleteContentForward") = false ->
        exists o',
          handleInput langs inputType o = Ok o'
          /\ activeMaskIndex o' <> (-1)%Z)
  /\ (forall (langs : list str) (ts : list str) (c : ascii) (s : str) (o : t),
        ts <> [] ->
        mapM parseMask ts = Ok (masksData o) ->
        exists o',
          setValue langs (JString (c :: s)) o = Ok o'
          /\ activeMaskIndex o' <> (-1)%Z).
Proof.
  assert (Hsel : forall ts D, ts <> [] -> allDigits D ->
            bestMatchIndex (selectBestMask (map parsed ts) D) <> (-1)%Z).
  { intros ts D Hne HD.
    destruct (selectBestMask_parsed ts D Hne HD) as (i & T & -> & _). lia. }
  split; [| split; [| split]].
  - intros t T D HT HD. parsed_inv HT. apply (eligible_parsed t D HD).
  - intros ts mds D Hne Hm HD. apply mapM_parseMask_inv in Hm. subst mds.
    apply Hsel; assumption.
  - intros langs ts inputType o Hne Hm Hty. apply mapM_parseMask_inv in Hm.
    unfold handleInput. rewrite Hty.
    destruct (applyBestMask_total langs (stripNonDigits (value (input o))) o)
      as (o1 & -> & Hok & _ & Ha).
    cbn [bind].
    assert (Hne1 : activeMaskIndex o1 <> (-1)%Z).
    { rewrite Ha, Hm. apply Hsel; [assumption |].
      apply stripNonDigits_allDigits. }
    destruct (adjustCursorPosition_ok o1 Hok) as (a & b & [-> | ->]);
      eexists; split; try reflexivity; exact Hne1.
  - intros langs ts c s o Hne Hm. apply mapM_parseMask_inv in Hm.
    cbn [setValue].
    destruct (applyBestMask_total langs (stripNonDigits (c :: s)) o)
      as (o1 & -> & Hok & _ & Ha).
    exists o1. split; [reflexivity |].
    rewrite Ha, Hm. apply Hsel; [assumption |].
    apply stripNonDigits_allDigits.
Qed.

Lemma render_matches_and_selection_is_never_none_witness :
  (parseMask mobileMask = Ok mobile
   /\ allDigits (js "1")
   /\ RegExp.test (regex mobile) (render mobile (js "1")) = true)
  /\ ([mobileMask; landlineMask] <> []
      /\ mapM parseMask [mobileMask; landlineMask] = Ok [mobile; landline]
      /\ bestMatchIndex (selectBestMask [mobile; landline] (js "1"))
         <> (-1)%Z)
  /\ (str_eqb (js "insertText") (js "deleteContentBackward")
      || str_eqb (js "insertText") (js "deleteContentForward") = false
      /\ exists o',
           handleInput english (js "insertText")
             (instance [mobile; landline] (-1) (js "1") 1) = Ok o'
           /\ activeMaskIndex o' <> (-1)%Z)
  /\ (exists o',
        setValue english (JString (js "1"))
          (instance [mobile; landline] (-1) [] 0) = Ok o'
        /\ activeMaskIndex o' <> (-1)%Z).
Proof.
  pose proof render_matches_and_selection_is_never_none
    as (Hrender & Hselect & Hinput & Hset).
  split; [| split; [| split]].
  - split; [reflexivity |]. split; [exact allDigits_one |].
    apply (Hrender mobileMask mobile (js "1")).
    + reflexivity.
    + exact allDigits_one.
  - split; [discriminate |]. split; [reflexivity |].
    apply (Hselect [mobileMask; landlineMask] [mobile; landline] (js "1")).
    + discriminate.
    + reflexivity.
    + exact allDigits_one.
  - split; [reflexivity |].
    apply (Hinput english [mobileMask; landlineMask] (js "insertText")
             (instance [mobile; landline] (-1) (js "1") 1)).
    + discriminate.
    + reflexivity.
    + reflexivity.
  - apply (Hset english [mobileMask; landlineMask] "1" []
             (instance [mobile; landline] (-1) [] 0)).
    + discriminate.
    + reflexivity.
Defined.

(** *** The cursor maps *)

Lemma countPlaceholders_app (a b : str) :
  countPlaceholders (a ++ b) = countPlaceholders a + countPlaceholders b.
Proof. unfold countPlaceholders. rewrite filter_app, length_app. reflexivity. Qed.

Lemma countPlaceholders_cons (c : ascii) (m : str) :
  countPlaceholders (c :: m)
  = (if Ascii.eqb c "#" then 1 else 0) + countPlaceholders m.
Proof.
  unfold countPlaceholders. cbn [filter].
  destruct (Ascii.eqb c "#"); reflexivity.
Qed.

Lemma isPlaceholderAt_parsed (t : str) (i : nat) :
  isPlaceholderAt (parsed t) i
  = match nth_error t i with
    | Some c => Ascii.eqb c "#"
    | None => false
    end.
Proof. reflexivity. Qed.

Lemma isPlaceholderAt_middle (pre suf : str) (c : ascii) :
  isPlaceholderAt (parsed (pre ++ c :: suf)) (length pre) = Ascii.eqb c "#".
Proof.
  rewrite isPlaceholderAt_parsed, nth_error_app2 by lia.
  rewrite Nat.sub_diag. reflexivity.
Qed.

(** The counting loop of [getCursorPosInUnmaskedValue]: the placeholders at
    the [n] positions from [i] on are added to the count. *)
Lemma unmaskedLoop_count (t : str) : forall n i acc,
  unmaskedLoop (Some (parsed t)) n i acc
  = Ok (acc + countPlaceholders (firstn n (skipn i t))).
Proof.
  induction n as [| n IH]; intros i acc; cbn [unmaskedLoop defined bind].
  - cbn. rewrite Nat.add_0_r. reflexivity.
  - rewrite IH, isPlaceholderAt_parsed.
    destruct (nth_error t i) as [c |] eqn:E.
    + rewrite (skipn_nth_error _ _ _ E). cbn [firstn].
      rewrite countPlaceholders_cons.
      destruct (Ascii.eqb c "#"); f_equal; lia.
    + apply nth_error_None in E.
      rewrite !skipn_all2 by lia. rewrite !firstn_nil. reflexivity.
Qed.

(** The first loop of [setCursorPositionInFormatted], started after the
    prefix [pre] of the mask with the placeholders of [pre] counted: it
    stops on the placeholder number [k] when there is one, and at the end
    of the mask otherwise. *)
Lemma formattedLoop_spec (k : nat) (suf : str) : forall pre i uc,
  i = length pre ->
  uc = countPlaceholders pre ->
  uc <= k ->
  let t := pre ++ suf in
  let r := formattedLoop (parsed t) k (length suf) i uc i in
  r <= length t
  /\ countPlaceholders (firstn r t) = Nat.min k (countPlaceholders t)
  /\ (r < length t -> isPlaceholderAt (parsed t) r = true).
Proof.
  induction suf as [| c suf IH]; intros pre i uc Hi Hu Hle; cbn zeta.
  - cbn [formattedLoop length]. rewrite app_nil_r. subst i uc.
    rewrite firstn_all. repeat split; lia.
  - cbn [formattedLoop length].
    assert (Hs : pre ++ c :: suf = (pre ++ [c]) ++ suf)
      by (rewrite <- app_assoc; reflexivity).
    assert (Hl : S i = length (pre ++ [c]))
      by (rewrite length_app; cbn [length]; lia).
    assert (Hp : isPlaceholderAt (parsed (pre ++ c :: suf)) i = Ascii.eqb c "#")
      by (subst i; apply isPlaceholderAt_middle).
    assert (Hc : countPlaceholders (pre ++ [c])
                 = (if Ascii.eqb c "#" then 1 else 0) + uc).
    { rewrite countPlaceholders_app, countPlaceholders_cons. cbn. lia. }
    rewrite Hp. destruct (Ascii.eqb c "#") eqn:Ec.
    + destruct (Nat.eqb_spec uc k) as [Hk | Hk].
      * rewrite Hp. subst i. rewrite length_app. cbn [length].
        rewrite firstn_app, firstn_all, Nat.sub_diag, firstn_0, app_nil_r.
        rewrite countPlaceholders_app, countPlaceholders_cons, Ec.
        repeat split; lia.
      * rewrite Hs. apply (IH (pre ++ [c]) (S i) (S uc)); lia.
    + rewrite Hs. apply (IH (pre ++ [c]) (S i) uc); lia.
Qed.

Lemma skipLiterals_stays (md : MaskData) (n pos : nat) :
  (0 < n -> isPlaceholderAt md pos = true) -> skipLiterals md n pos = pos.
Proof.
  destruct n as [| n]; cbn [skipLiterals]; [reflexivity |].
  intros H. rewrite H by lia. reflexivity.
Qed.

Lemma formattedCursorPos_spec (t : str) (k : nat) :
  formattedCursorPos (parsed t) k <= length t
  /\ countPlaceholders (firstn (formattedCursorPos (parsed t) k) t)
     = Nat.min k (countPlaceholders t).
Proof.
  pose proof (formattedLoop_spec k t [] 0 0 eq_refl eq_refl (Nat.le_0_l k)) as H.
  cbn zeta in H. cbn [app] in H.
  destruct H as (Hr & Hc & Hp).
  unfold formattedCursorPos. cbn [mask parsed].
  rewrite skipLiterals_stays; [auto |].
  intros Hpos. apply Hp. lia.
Qed.

(** C4.  With [T] the active template, mapping an unmasked offset [k] to
    the formatted position [setCursorPositionInFormatted] computes, and
    that position back with [getCursorPosInUnmaskedValue], gives
    [min(k, T.digitCount)]. *)
Theorem cursor_round_trip_clamps :
  forall (t : str) (T : MaskData) (o : PhoneNumberMask.t) (i k : nat),
    parseMask t = Ok T ->
    activeMaskIndex o = Z.of_nat i ->
    nth_error (masksData o) i = Some T ->
    setCursorPositionInFormatted k o
      = Ok (withInput
              (setSelectionRange (formattedCursorPos T k)
                 (formattedCursorPos T k) (input o)) o)
    /\ getCursorPosInUnmaskedValue (formattedCursorPos T k) o
       = Ok (Nat.min k (digitCount T)).
Proof.
  intros t T o i k HT Ha Hn. parsed_inv HT.
  unfold setCursorPositionInFormatted, getCursorPosInUnmaskedValue.
  rewrite Ha, of_nat_not_sentinel, lookupZ_of_nat, Hn.
  cbn [defined bind]. split; [reflexivity |].
  rewrite unmaskedLoop_count. cbn [skipn Nat.add digitCount parsed].
  f_equal. apply formattedCursorPos_spec.
Qed.

Lemma cursor_round_trip_clamps_witness :
  parseMask mobileMask = Ok mobile
  /\ activeMaskIndex (instance [mobile] 0 (js "(11) 99999-9999") 15)
     = Z.of_nat 0
  /\ nth_error (masksData (instance [mobile] 0 (js "(11) 99999-9999") 15)) 0
     = Some mobile
  /\ getCursorPosInUnmaskedValue (formattedCursorPos mobile 2)
       (instance [mobile] 0 (js "(11) 99999-9999") 15)
     = Ok (Nat.min 2 (digitCount mobile)).
Proof.
  split; [reflexivity |]. split; [reflexivity |]. split; [reflexivity |].
  apply (cursor_round_trip_clamps mobileMask mobile
           (instance [mobile] 0 (js "(11) 99999-9999") 15) 0 2);
    reflexivity.
Defined.

(** *** Deletion *)

Lemma getCursorPos_active (t : str) (o : PhoneNumberMask.t) (i n : nat) :
  activeMaskIndex o = Z.of_nat i ->
  nth_error (masksData o) i = Some (parsed t) ->
  getCursorPosInUnmaskedValue n o = Ok (countPlaceholders (firstn n t)).
Proof.
  intros Ha Hn. unfold getCursorPosInUnmaskedValue.
  rewrite Ha, of_nat_not_sentinel, lookupZ_of_nat, Hn.
  rewrite unmaskedLoop_count. reflexivity.
Qed.







(** *** Validation *)

Lemma truthy_nonempty (v : option str) (m : str) :
  truthy v = Some m -> m <> [].
Proof.
  destruct v as [[| c s] |]; cbn; try discriminate.
  intros H. injection H as <-. discriminate.
Qed.

Lemma getErrorMessageLoop_nonempty (msgs : list (str * str)) (langs : list str) :
  forall m, getErrorMessageLoop msgs langs = Some m -> m <> [].
Proof.
  induction langs as [| l langs IH]; intros m; cbn [getErrorMessageLoop].
  - discriminate.
  - destruct (truthy (lookupKey msgs l)) as [m1 |] eqn:E1.
    + intros H. injection H as <-. apply (truthy_nonempty _ _ E1).
    + destruct (truthy (lookupKey msgs (beforeDash l))) as [m2 |] eqn:E2.
      * intros H. injection H as <-. apply (truthy_nonempty _ _ E2).
      * apply IH.
Qed.

(** The failure message is never the empty string, which stands for a
    valid field. *)
Lemma getErrorMessage_nonempty (langs : list str) (o : PhoneNumberMask.t) :
  getErrorMessage langs o <> [].
Proof.
  unfold getErrorMessage.
  destruct (getErrorMessageLoop _ _) as [m |] eqn:E.
  - apply (getErrorMessageLoop_nonempty _ _ _ E).
  - destruct (truthy _) as [m |] eqn:E2.
    + apply (truthy_nonempty _ _ E2).
    + vm_compute. discriminate.
Qed.

(** C8, as amended.  With an active template, [validateInput] reports a
    pass (an empty validity message) exactly when the display matches the
    template's matcher and the number of digits of the display equals the
    template's [digitCount]; otherwise it sets the localized failure
    message.  For [(##) #####-####], whose [digitCount] is 11, the display
    [(11) 9999-9999] matches the matcher and yet fails validation, because it
    holds 10 digits. *)
Theorem validateInput_passes_iff_match_and_digit_count :
  (forall (langs : list str) (o : PhoneNumberMask.t) (i : nat) (T : MaskData),
      activeMaskIndex o = Z.of_nat i ->
      nth_error (masksData o) i = Some T ->
      exists o',
        validateInput langs o = Ok o'
        /\ value (input o') = value (input o)
        /\ (validationMessage (input o') = []
            <-> RegExp.test (regex T) (value (input o)) = true
                /\ length (getUnmaskedValue o) = digitCount T)
        /\ (validationMessage (input o') <> [] ->
            validationMessage (input o') = getErrorMessage langs o))
  /\ (let o := instance [mobile] 0 (js "(11) 9999-9999") 14 in
      RegExp.test (regex mobile) (value (input o)) = true
      /\ length (getUnmaskedValue o) = 10
      /\ digitCount mobile = 11
      /\ exists o',
           validateInput english o = Ok o'
           /\ validationMessage (input o')
              = js "Please enter a valid phone number.").
Proof.
  split.
  - intros langs o i T Ha Hn. unfold validateInput.
    rewrite Ha, of_nat_not_sentinel, lookupZ_of_nat, Hn.
    cbn [negb defined bind].
    destruct (RegExp.test (regex T) (value (input o))) eqn:Ht;
      destruct (Nat.eqb_spec (length (getUnmaskedValue o)) (digitCount T))
        as [Hc | Hc];
      cbn [andb]; eexists; (split; [reflexivity |]);
      cbn [input withInput validationMessage value setCustomValidity];
      (split; [reflexivity |]).
    + split; [split; auto |]. intros H. exfalso. apply H. reflexivity.
    + split; [| reflexivity]. split.
      * intros H. exfalso. exact (getErrorMessage_nonempty langs o H).
      * intros [_ H]. contradiction.
    + split; [| reflexivity]. split.
      * intros H. exfalso. exact (getErrorMessage_nonempty langs o H).
      * intros [H _]. discriminate.
    + split; [| reflexivity]. split.
      * intros H. exfalso. exact (getErrorMessage_nonempty langs o H).
      * intros [H _]. discriminate.
  - cbv zeta. repeat split; try reflexivity.
    eexists. split; [vm_compute; reflexivity | reflexivity].
Qed.

Lemma validateInput_passes_iff_match_and_digit_count_witness :
  activeMaskIndex (instance [mobile] 0 (js "(11) 99999-9999") 15) = Z.of_nat 0
  /\ nth_error (masksData (instance [mobile] 0 (js "(11) 99999-9999") 15)) 0
     = Some mobile
  /\ exists o',
       validateInput english (instance [mobile] 0 (js "(11) 99999-9999") 15)
         = Ok o'
       /\ value (input o')
          = value (input (instance [mobile] 0 (js "(11) 99999-9999") 15))
       /\ (validationMessage (input o') = []
           <-> RegExp.test (regex mobile)
                 (value (input (instance [mobile] 0 (js "(11) 99999-9999") 15)))
               = true
               /\ length
                    (getUnmaskedValue
                       (instance [mobile] 0 (js "(11) 99999-9999") 15))
                  = digitCount mobile)
       /\ (validationMessage (input o') <> [] ->
           validationMessage (input o')
           = getErrorMessage english
               (instance [mobile] 0 (js "(11) 99999-9999") 15)).
Proof.
  split; [reflexivity |]. split; [reflexivity |].
  apply (proj1 validateInput_passes_iff_match_and_digit_count english
           (instance [mobile] 0 (js "(11) 99999-9999") 15) 0 mobile);
    reflexivity.
Defined.

(** C8, as stated, fails on its figure: the [digitCount] of
    [(##) #####-####] is 11, not 9, and the display [(11) 9999-9999] holds
    10 digits. *)
Lemma mobile_digitCount_is_not_nine :
  parseMask mobileMask = Ok mobile
  /\ digitCount mobile = 11
  /\ digitCount mobile <> 9
  /\ length (stripNonDigits (js "(11) 9999-9999")) = 10.
Proof.
  split; [reflexivity |]. split; [reflexivity |].
  split; [vm_compute; lia | reflexivity].
Qed.

(** *** The empty digit sequence *)

(** C6.  [setValue] with an empty value clears the display and the active
    template, as the claim says.  The [input] handler has no such guard:
    when the field has been emptied (for instance by cutting its whole
    text) its selection loop still runs, and it leaves the first mask
    active and the bare literals [() -] in the field; [setValue] does the
    same for a non-empty value without digits. *)
Theorem empty_digit_sequence_on_input_keeps_a_mask :
  (forall (langs : list str) (o : PhoneNumberMask.t),
      exists o',
        setValue langs (JString []) o = Ok o'
        /\ activeMaskIndex o' = (-1)%Z
        /\ value (input o') = [])
  /\ (stripNonDigits (value (input (instance [mobile] 0 [] 0))) = []
      /\ exists o',
           handleInput english (js "deleteByCut") (instance [mobile] 0 [] 0)
             = Ok o'
           /\ activeMaskIndex o' = 0%Z
           /\ value (input o') = js "() -")
  /\ (stripNonDigits (js "abc") = []
      /\ exists o',
           setValue english (JString (js "abc")) (instance [mobile] (-1) [] 0)
             = Ok o'
           /\ activeMaskIndex o' = 0%Z
           /\ value (input o') = js "() -").
Proof.
  split; [| split].
  - intros langs o. cbn [setValue].
    match goal with |- context [validateInput _ ?x] =>
      destruct (validateInput_ok langs x) as [msg ->] end.
    + left. reflexivity.
    + eexists. split; [reflexivity |]. split; [reflexivity |].
      cbn [input withInput withActiveMaskIndex value setCustomValidity].
      unfold setValueAttr. change (stripLineBreaks []) with (@nil ascii).
      cbv zeta. destruct (str_eqb [] (value (input o))) eqn:E.
      * unfold str_eqb in E.
        destruct (list_eq_dec ascii_dec [] (value (input o))) as [<- | ];
          [reflexivity | discriminate].
      * reflexivity.
  - split; [reflexivity |].
    eexists. split; [vm_compute; reflexivity |]. split; reflexivity.
  - split; [reflexivity |].
    eexists. split; [vm_compute; reflexivity |]. split; reflexivity.
Qed.

(** *** Faults *)

(** The Delete key on a field without an active mask reads [mask] of
    [undefined]. *)
Lemma handleKeyDown_delete_without_active_mask :
  handleKeyDown english deleteKey (instance [mobile] (-1) [] 0)
  = Throw TypeError.
Proof. reflexivity. Qed.

Lemma constructor_ok (doc : document) (langs : list str) (tg : target)
    (opts : UserOptions) (el : HTMLInputElement) :
  tg = Element el \/ (exists s, tg = Selector s /\ doc s = Ok (Some el)) ->
  exists o, PhoneNumberMask.constructor doc langs tg opts = Ok o.
Proof.
  intros Htg. unfold PhoneNumberMask.constructor.
  assert (Hin : (match tg with
                 | Selector s => doc s
                 | Element el0 => Ok (Some el0)
                 | OtherValue =>
                   Throw (Error
                     (js "Invalid input element or selector provided to PhoneNumberMask."))
                 end) = Ok (Some el)).
  { destruct Htg as [-> | (s & -> & ->)]; reflexivity. }
  rewrite Hin. cbn [bind]. rewrite mapM_parseMask. cbn [bind].
  destruct (value el) as [| c v]; [eauto |].
  match goal with |- context [setValue ?l ?v ?x] =>
    destruct (setValue_total l v x) as (o' & -> & _) end.
  eauto.
Qed.

(** C9, as amended.  The constructor of [PhoneNumberMask] reports a missing
    or invalid target by throwing: its own error when the target is neither
    a selector nor an element and when the selector finds no element, and
    the exception of [document.querySelector] when the selector is rejected;
    given an input element, or a selector that finds one, it succeeds.  The
    constructor of [MoneyMask] throws nothing of its own: for a target that
    is neither a selector nor an element, and for a selector that finds no
    element, it returns silently and leaves the instance unbound; only the
    exception of [document.querySelector] for a rejected selector passes
    through it.  The engine operations never raise a fault: parsing always
    yields a template, and a render-select-display-validate pass and
    validation itself always complete ([render] and [selectBestMask] are
    total functions without a failure case). *)
Theorem constructor_faults_and_engine_totality :
  (forall (doc : document) (langs : list str) (opts : UserOptions),
      PhoneNumberMask.constructor doc langs OtherValue opts
      = Throw (Error
          (js "Invalid input element or selector provided to PhoneNumberMask.")))
  /\ (forall (doc : document) (langs : list str) (s : str) (opts : UserOptions),
        doc s = Ok None ->
        PhoneNumberMask.constructor doc langs (Selector s) opts
        = Throw (Error (js "Input element not found for PhoneNumberMask.")))
  /\ (forall (doc : document) (langs : list str) (s : str) (opts : UserOptions)
             (e : exn),
        doc s = Throw e ->
        PhoneNumberMask.constructor doc langs (Selector s) opts = Throw e)
  /\ (forall (doc : document) (langs : list str) (tg : target)
             (opts : UserOptions) (el : HTMLInputElement),
        tg = Element el \/ (exists s, tg = Selector s /\ doc s = Ok (Some el)) ->
        exists o, PhoneNumberMask.constructor doc langs tg opts = Ok o)
  /\ (forall (doc : document) (opts : MoneyMask.UserOptions),
        MoneyMask.constructor doc OtherValue opts
        = Ok {| MoneyMask.input := None; MoneyMask.options := None |})
  /\ (forall (doc : document) (s : str) (opts : MoneyMask.UserOptions),
        doc s = Ok None ->
        MoneyMask.constructor doc (Selector s) opts
        = Ok {| MoneyMask.input := None; MoneyMask.options := None |})
  /\ (forall (doc : document) (s : str) (opts : MoneyMask.UserOptions)
             (e : exn),
        doc s = Throw e ->
        MoneyMask.constructor doc (Selector s) opts = Throw e)
  /\ (forall (doc : document) (tg : target) (opts : MoneyMask.UserOptions)
             (el : HTMLInputElement),
        tg = Element el \/ (exists s, tg = Selector s /\ doc s = Ok (Some el)) ->
        exists m,
          MoneyMask.constructor doc tg opts = Ok m
          /\ MoneyMask.input m = Some el)
  /\ (forall (doc : document) (tg : target) (opts : MoneyMask.UserOptions)
             (e : exn),
        MoneyMask.constructor doc tg opts = Throw e ->
        exists s, tg = Selector s /\ doc s = Throw e)
  /\ (forall t : str, exists T, parseMask t = Ok T)
  /\ (forall (langs : list str) (D : str) (o : PhoneNumberMask.t),
        exists o', applyBestMask langs D o = Ok o')
  /\ (forall (langs : list str) (o : PhoneNumberMask.t),
        indexOk o -> exists o', validateInput langs o = Ok o').
Proof.
  repeat match goal with |- _ /\ _ => split end.
  - reflexivity.
  - intros doc langs s opts Hs. unfold PhoneNumberMask.constructor.
    rewrite Hs. reflexivity.
  - intros doc langs s opts e Hs. unfold PhoneNumberMask.constructor.
    rewrite Hs. reflexivity.
  - apply constructor_ok.
  - reflexivity.
  - intros doc s opts Hs. unfold MoneyMask.constructor. rewrite Hs.
    reflexivity.
  - intros doc s opts e Hs. unfold MoneyMask.constructor. rewrite Hs.
    reflexivity.
  - intros doc tg opts el [-> | (s & -> & Hs)]; unfold MoneyMask.constructor;
      rewrite ?Hs; cbn [bind]; eexists; split; reflexivity.
  - intros doc tg opts e. unfold MoneyMask.constructor.
    destruct tg as [s | el |]; try discriminate.
    destruct (doc s) as [[el |] | e'] eqn:Hs; cbn [bind]; try discriminate.
    intros H. injection H as <-. exists s. auto.
  - intros t. exists (parsed t). apply parseMask_parsed.
  - intros langs D o.
    destruct (applyBestMask_total langs D o) as (o' & H & _). eauto.
  - intros langs o Hok. destruct (validateInput_ok langs o Hok) as [msg H].
    eauto.
Qed.

Lemma constructor_faults_and_engine_totality_witness :
  (noDocument (js "#phone") = Ok None
   /\ PhoneNumberMask.constructor noDocument english (Selector (js "#phone"))
        noOptions
      = Throw (Error (js "Input element not found for PhoneNumberMask.")))
  /\ (noDocument [] = Throw (DOMException (js "SyntaxError"))
      /\ PhoneNumberMask.constructor noDocument english (Selector []) noOptions
         = Throw (DOMException (js "SyntaxError"))
      /\ MoneyMask.constructor noDocument (Selector []) moneyNoOptions
         = Throw (DOMException (js "SyntaxError")))
  /\ (exists o,
        PhoneNumberMask.constructor noDocument english (Element emptyField)
          noOptions = Ok o)
  /\ (noDocument (js "#money") = Ok None
      /\ MoneyMask.constructor noDocument (Selector (js "#money"))
           moneyNoOptions
         = Ok {| MoneyMask.input := None; MoneyMask.options := None |})
  /\ (exists m,
        MoneyMask.constructor noDocument (Element emptyField) moneyNoOptions
        = Ok m
        /\ MoneyMask.input m = Some emptyField)
  /\ (indexOk (instance [mobile] 0 (js "(11) 99999-9999") 15)
      /\ exists o',
           validateInput english (instance [mobile] 0 (js "(11) 99999-9999") 15)
           = Ok o').
Proof.
  pose proof constructor_faults_and_engine_totality
    as (_ & Hmissing & Hrejected & Hvalid & _ & Hmoney & Hmoneyrej
        & Hmoneyok & _ & _ & _ & Hvalidate).
  split; [| split; [| split; [| split; [| split]]]].
  - split; [reflexivity |].
    apply (Hmissing noDocument english (js "#phone") noOptions). reflexivity.
  - split; [reflexivity |]. split.
    + apply (Hrejected noDocument english [] noOptions). reflexivity.
    + apply (Hmoneyrej noDocument [] moneyNoOptions). reflexivity.
  - apply (Hvalid noDocument english (Element emptyField) noOptions emptyField).
    left. reflexivity.
  - split; [reflexivity |].
    apply (Hmoney noDocument (js "#money") moneyNoOptions). reflexivity.
  - apply (Hmoneyok noDocument (Element emptyField) moneyNoOptions emptyField).
    left. reflexivity.
  - assert (Hok : indexOk (instance [mobile] 0 (js "(11) 99999-9999") 15)).
    { right. simpl. lia. }
    split; [exact Hok |].
    apply (Hvalidate english _ Hok).
Defined.

(** C9, as stated, fails for [MoneyMask]: given a target that is neither a
    selector nor an element, or a valid selector that finds nothing, its
    constructor returns without throwing. *)
Lemma moneyMask_constructor_does_not_throw :
  MoneyMask.constructor noDocument OtherValue moneyNoOptions
  = Ok {| MoneyMask.input := None; MoneyMask.options := None |}
  /\ (noDocument (js "#money") = Ok None
      /\ MoneyMask.constructor noDocument (Selector (js "#money"))
           moneyNoOptions
         = Ok {| MoneyMask.input := None; MoneyMask.options := None |})
  /\ forall e, MoneyMask.constructor noDocument OtherValue moneyNoOptions
               <> Throw e.
Proof.
  split; [reflexivity |]. split; [split; reflexivity |].
  intros e. discriminate.
Qed.

End Facts.

(** ** Further properties of the code *)

Module Coverage.

Import PhoneNumberMask Engine More Sample Facts.

(** *** [parseMask]: the placeholder records *)

Lemma placeholdersFrom_length (m : str) : forall i c,
  length (placeholdersFrom m i c) = countPlaceholders m.
Proof.
  induction m as [| x m IH]; intros i c; [reflexivity |].
  cbn [placeholdersFrom]. rewrite countPlaceholders_cons.
  destruct (Ascii.eqb x "#"); cbn [length]; rewrite IH; reflexivity.
Qed.

Lemma placeholdersFrom_nth_inv (m : str) : forall i c k ph,
  nth_error (placeholdersFrom m i c) k = Some ph ->
  charIndex ph = c + k
  /\ i <= index ph
  /\ nth_error m (index ph - i) = Some "#"
  /\ countPlaceholders (firstn (index ph - i) m) = k.
Proof.
  induction m as [| x m IH]; intros i c k ph H.
  - destruct k; discriminate.
  - cbn [placeholdersFrom] in H. destruct (Ascii.eqb x "#") eqn:Ex.
    + destruct k as [| k]; cbn [nth_error] in H.
      * injection H as <-. cbn [charIndex index]. rewrite Nat.sub_diag.
        apply Ascii.eqb_eq in Ex. subst x. cbn. repeat split; lia.
      * destruct (IH _ _ _ _ H) as (Hc & Hi & Hn & Hk).
        replace (index ph - i) with (S (index ph - S i)) by lia.
        cbn [nth_error firstn]. rewrite countPlaceholders_cons, Ex.
        repeat split; [lia | lia | assumption | lia].
    + destruct (IH _ _ _ _ H) as (Hc & Hi & Hn & Hk).
      replace (index ph - i) with (S (index ph - S i)) by lia.
      cbn [nth_error firstn]. rewrite countPlaceholders_cons, Ex.
      repeat split; [lia | lia | assumption | lia].
Qed.

Lemma placeholdersFrom_nth (m : str) : forall i c p,
  nth_error m p = Some "#" ->
  nth_error (placeholdersFrom m i c) (countPlaceholders (firstn p m))
  = Some {| index := i + p; charIndex := c + countPlaceholders (firstn p m) |}.
Proof.
  induction m as [| x m IH]; intros i c p H.
  - destruct p; discriminate.
  - cbn [placeholdersFrom]. destruct p as [| p]; cbn [nth_error firstn] in *.
    + injection H as ->. cbn. do 2 f_equal; lia.
    + rewrite countPlaceholders_cons. destruct (Ascii.eqb x "#").
      * cbn [Nat.add nth_error]. rewrite (IH (S i) (S c) p H).
        do 2 f_equal; lia.
      * cbn [Nat.add]. rewrite (IH (S i) c p H). do 2 f_equal; lia.
Qed.

Lemma countPlaceholders_le_length (m : str) :
  countPlaceholders m <= length m.
Proof. unfold countPlaceholders. apply filter_length_le. Qed.

(** X1.  The placeholder list [parseMask] returns enumerates the [#]
    positions of the mask in order: it has [digitCount] entries, the entry
    number [k] has [charIndex] [k] and its [index] is the position of a [#]
    with exactly [k] placeholders before it, and every [#] of the mask has
    its entry. *)
Theorem parseMask_placeholders_enumerate_slots :
  forall (t : str) (T : MaskData),
    parseMask t = Ok T ->
    length (placeholders T) = digitCount T
    /\ digitCount T <= length t
    /\ (forall k ph,
          nth_error (placeholders T) k = Some ph ->
          charIndex ph = k
          /\ nth_error t (index ph) = Some "#"
          /\ countPlaceholders (firstn (index ph) t) = k)
    /\ (forall p,
          nth_error t p = Some "#" ->
          nth_error (placeholders T) (countPlaceholders (firstn p t))
          = Some {| index := p;
                    charIndex := countPlaceholders (firstn p t) |}).
Proof.
  intros t T HT. parsed_inv HT. cbn [placeholders digitCount parsed].
  split; [apply placeholdersFrom_length |].
  split; [apply countPlaceholders_le_length |]. split.
  - intros k ph H.
    destruct (placeholdersFrom_nth_inv _ _ _ _ _ H) as (Hc & _ & Hn & Hk).
    rewrite Nat.sub_0_r in Hn, Hk. auto.
  - intros p H. apply (placeholdersFrom_nth t 0 0 p H).
Qed.

Lemma parseMask_placeholders_enumerate_slots_witness :
  parseMask landlineMask = Ok landline
  /\ length (placeholders landline) = digitCount landline
  /\ digitCount landline <= length landlineMask
  /\ (forall k ph,
        nth_error (placeholders landline) k = Some ph ->
        charIndex ph = k
        /\ nth_error landlineMask (index ph) = Some "#"
        /\ countPlaceholders (firstn (index ph) landlineMask) = k)
  /\ (forall p,
        nth_error landlineMask p = Some "#" ->
        nth_error (placeholders landline)
          (countPlaceholders (firstn p landlineMask))
        = Some {| index := p;
                  charIndex := countPlaceholders (firstn p landlineMask) |}).
Proof.
  split; [reflexivity |].
  apply (parseMask_placeholders_enumerate_slots landlineMask landline).
  reflexivity.
Defined.

(** *** Rendering with enough digits *)

Lemma fill_firstn (m : str) : forall D,
  fill m (firstn (countPlaceholders m) D) = fill m D.
Proof.
  induction m as [| x m IH]; intros D; [reflexivity |].
  rewrite countPlaceholders_cons. cbn [fill].
  destruct (Ascii.eqb x "#"); cbn [Nat.add].
  - destruct D as [| d D]; cbn [firstn]; [reflexivity |].
    rewrite IH. reflexivity.
  - rewrite IH. reflexivity.
Qed.

Lemma fill_nth (m : str) : forall D i c,
  countPlaceholders m <= length D ->
  nth_error m i = Some c ->
  nth_error (fill m D) i
  = if Ascii.eqb c "#" then nth_error D (countPlaceholders (firstn i m))
    else Some c.
Proof.
  induction m as [| x m IH]; intros D i c Hlen Hi.
  - destruct i; discriminate.
  - rewrite countPlaceholders_cons in Hlen. cbn [fill].
    destruct i as [| i]; cbn [nth_error firstn] in *.
    + injection Hi as ->. destruct (Ascii.eqb c "#") eqn:Ec.
      * destruct D as [| d D]; [cbn in Hlen; lia | reflexivity].
      * reflexivity.
    + rewrite countPlaceholders_cons. destruct (Ascii.eqb x "#").
      * destruct D as [| d D]; [cbn in Hlen; lia |].
        cbn [length] in Hlen. cbn [nth_error Nat.add].
        apply IH; [lia | assumption].
      * cbn [nth_error Nat.add]. apply IH; [lia | assumption].
Qed.

(** X2.  When the digit sequence supplies at least [digitCount] digits the
    render is as long as the template and aligned with it: a literal
    position shows the template's character, a placeholder position shows
    the digit bound to it, and the digits beyond [digitCount] are dropped
    without any effect on the result. *)
Theorem render_full_aligns_with_template :
  forall (t : str) (T : MaskData) (D : str),
    parseMask t = Ok T ->
    digitCount T <= length D ->
    length (render T D) = length t
    /\ render T D = render T (firstn (digitCount T) D)
    /\ (forall i c,
          nth_error t i = Some c ->
          nth_error (render T D) i
          = if Ascii.eqb c "#"
            then nth_error D (countPlaceholders (firstn i t))
            else Some c).
Proof.
  intros t T D HT Hlen. parsed_inv HT. cbn [digitCount parsed] in *.
  rewrite !render_parsed. split; [| split].
  - pose proof (fill_length t D). lia.
  - symmetry. apply fill_firstn.
  - intros i c Hi. apply fill_nth; assumption.
Qed.

Lemma render_full_aligns_with_template_witness :
  parseMask landlineMask = Ok landline
  /\ digitCount landline <= length (js "119999999955")
  /\ length (render landline (js "119999999955")) = length landlineMask
  /\ render landline (js "119999999955")
     = render landline (firstn (digitCount landline) (js "119999999955"))
  /\ (forall i c,
        nth_error landlineMask i = Some c ->
        nth_error (render landline (js "119999999955")) i
        = if Ascii.eqb c "#"
          then nth_error (js "119999999955")
                 (countPlaceholders (firstn i landlineMask))
          else Some c).
Proof.
  split; [reflexivity |]. split; [vm_compute; lia |].
  apply (render_full_aligns_with_template landlineMask landline
           (js "119999999955")).
  - reflexivity.
  - vm_compute; lia.
Defined.

(** *** Unmasking a render *)

Lemma stripNonDigits_fill (m : str) : forall D,
  noLiteralDigits m ->
  allDigits D ->
  stripNonDigits (fill m D) = firstn (countPlaceholders m) D
  /\ stripDigits (fill m D) = literalsOf m.
Proof.
  unfold stripNonDigits, stripDigits, literalsOf.
  induction m as [| x m IH]; intros D Hm HD.
  - split; reflexivity.
  - inversion Hm as [| ? ? Hx Hm']; subst.
    rewrite countPlaceholders_cons. cbn [fill filter].
    destruct (Ascii.eqb x "#") eqn:Ex; cbn [negb Nat.add].
    + destruct D as [| d D].
      * destruct (IH [] Hm' HD) as [H1 H2]. rewrite H1, H2.
        rewrite firstn_nil. split; reflexivity.
      * inversion HD as [| ? ? Hd HD']; subst.
        destruct (IH D Hm' HD') as [H1 H2].
        cbn [filter firstn]. rewrite Hd, H1, H2. split; reflexivity.
    + destruct (IH D Hm' HD) as [H1 H2].
      cbn [filter]. rewrite Hx, H1, H2. split; reflexivity.
Qed.

(** X3.  For a template without digit characters, unmasking a render gives
    back the digits that were rendered: the digits of the render are the
    first [digitCount] digits of the sequence (all of them when there are
    fewer), and its other characters are the literal characters of the
    template, in order. *)
Theorem unmask_render_round_trip :
  forall (t : str) (T : MaskData) (D : str),
    parseMask t = Ok T ->
    noLiteralDigits t ->
    allDigits D ->
    stripNonDigits (render T D) = firstn (digitCount T) D
    /\ stripDigits (render T D) = literalsOf t.
Proof.
  intros t T D HT Hm HD. parsed_inv HT. cbn [digitCount parsed].
  rewrite render_parsed. apply stripNonDigits_fill; assumption.
Qed.

Lemma noLiteralDigits_mobile : noLiteralDigits mobileMask.
Proof. repeat constructor. Qed.

Lemma noLiteralDigits_landline : noLiteralDigits landlineMask.
Proof. repeat constructor. Qed.

Lemma allDigits_sample : allDigits (js "119876").
Proof. repeat constructor. Qed.

Lemma unmask_render_round_trip_witness :
  parseMask mobileMask = Ok mobile
  /\ noLiteralDigits mobileMask
  /\ allDigits (js "119876")
  /\ stripNonDigits (render mobile (js "119876"))
     = firstn (digitCount mobile) (js "119876")
  /\ stripDigits (render mobile (js "119876")) = literalsOf mobileMask.
Proof.
  split; [reflexivity |]. split; [exact noLiteralDigits_mobile |].
  split; [exact allDigits_sample |].
  apply (unmask_render_round_trip mobileMask mobile (js "119876")).
  - reflexivity.
  - exact noLiteralDigits_mobile.
  - exact allDigits_sample.
Defined.

(** *** The select-display-validate pass, made explicit *)

Lemma str_eqb_true (a b : str) : str_eqb a b = true -> a = b.
Proof.
  unfold str_eqb. destruct (list_eq_dec ascii_dec a b); [auto | discriminate].
Qed.

Lemma value_setValueAttr (v : str) (el : HTMLInputElement) :
  value (setValueAttr v el) = stripLineBreaks v.
Proof.
  unfold setValueAttr. cbv zeta.
  destruct (str_eqb (stripLineBreaks v) (value el)) eqn:E; [| reflexivity].
  symmetry. apply str_eqb_true, E.
Qed.

Lemma validationMessage_setValueAttr (v : str) (el : HTMLInputElement) :
  validationMessage (setValueAttr v el) = validationMessage el.
Proof.
  unfold setValueAttr. cbv zeta.
  destruct (str_eqb (stripLineBreaks v) (value el)); reflexivity.
Qed.

Lemma digit_is_no_line_break (c : ascii) :
  isDigit c = true -> isLineBreak c = false.
Proof.
  intros Hd. unfold isLineBreak.
  destruct (Ascii.eqb_spec c "010") as [-> | _]; [discriminate |].
  destruct (Ascii.eqb_spec c "013") as [-> | _]; [discriminate |].
  reflexivity.
Qed.

Lemma stripLineBreaks_allDigits (D : str) :
  allDigits D -> stripLineBreaks D = D.
Proof.
  unfold allDigits, stripLineBreaks. intros H.
  induction H as [| d D Hd H IH]; [reflexivity |].
  cbn [filter]. rewrite (digit_is_no_line_break d Hd), IH. reflexivity.
Qed.

(** Line breaks are not digits: sanitizing a text keeps its digits. *)
Lemma stripNonDigits_stripLineBreaks (v : str) :
  stripNonDigits (stripLineBreaks v) = stripNonDigits v.
Proof.
  unfold stripNonDigits, stripLineBreaks.
  induction v as [| c v IH]; [reflexivity |].
  cbn [filter]. destruct (isDigit c) eqn:Hd.
  - rewrite (digit_is_no_line_break c Hd). cbn [negb filter].
    rewrite Hd, IH. reflexivity.
  - destruct (isLineBreak c); cbn [negb filter]; rewrite ?Hd; exact IH.
Qed.

(** A render in a template without line breaks holds none. *)
Lemma stripLineBreaks_fill (m : str) : forall D,
  noLineBreaks m ->
  allDigits D ->
  stripLineBreaks (fill m D) = fill m D.
Proof.
  unfold stripLineBreaks.
  induction m as [| x m IH]; intros D Hm HD; [reflexivity |].
  inversion Hm as [| ? ? Hx Hm']; subst. cbn [fill].
  destruct (Ascii.eqb x "#").
  - destruct D as [| d D]; [apply IH; assumption |].
    inversion HD as [| ? ? Hd HD']; subst.
    cbn [filter]. rewrite (digit_is_no_line_break d Hd). cbn [negb].
    rewrite IH by assumption. reflexivity.
  - cbn [filter]. rewrite Hx. cbn [negb]. rewrite IH by assumption.
    reflexivity.
Qed.

Lemma getErrorMessage_options (langs : list str) (o o' : PhoneNumberMask.t) :
  options o' = options o -> getErrorMessage langs o' = getErrorMessage langs o.
Proof. intros H. unfold getErrorMessage. rewrite H. reflexivity. Qed.

Lemma validateInput_active (langs : list str) (o : PhoneNumberMask.t)
    (i : nat) (T : MaskData) :
  activeMaskIndex o = Z.of_nat i ->
  nth_error (masksData o) i = Some T ->
  validateInput langs o
  = Ok (withInput
          (setCustomValidity
             (if RegExp.test (regex T) (value (input o))
                 && Nat.eqb (length (getUnmaskedValue o)) (digitCount T)
              then [] else getErrorMessage langs o)
             (input o)) o).
Proof.
  intros Ha Hn. unfold validateInput.
  rewrite Ha, of_nat_not_sentinel, lookupZ_of_nat, Hn.
  cbn [negb defined bind]. destruct (_ && _); reflexivity.
Qed.

(** The state after the pass over parsed masks, field by field. *)
Lemma applyBestMask_parsed (langs : list str) (ts : list str) (D : str)
    (o : PhoneNumberMask.t) :
  masksData o = map parsed ts ->
  ts <> [] ->
  allDigits D ->
  exists i T o',
    applyBestMask langs D o = Ok o'
    /\ nth_error (map parsed ts) i = Some T
    /\ (forall j T',
          nth_error (map parsed ts) j = Some T' ->
          (diffOf T D <= diffOf T' D)%Z
          /\ (j < i -> (diffOf T D < diffOf T' D)%Z))
    /\ activeMaskIndex o' = Z.of_nat i
    /\ value (input o') = stripLineBreaks (render T D)
    /\ validationMessage (input o')
       = (if RegExp.test (regex T) (stripLineBreaks (render T D))
             && Nat.eqb (length (stripNonDigits (render T D))) (digitCount T)
          then [] else getErrorMessage langs o)
    /\ sameConfiguration o o'.
Proof.
  intros Hm Hne HD.
  destruct (selectBestMask_parsed ts D Hne HD)
    as (i & T & Hi & HT & He & Hf & Hmin).
  exists i, T. unfold applyBestMask. rewrite Hm, Hi, Hf.
  cbn [masksData withActiveMaskIndex].
  rewrite of_nat_not_sentinel, Hm, lookupZ_of_nat, HT.
  cbn [negb defined bind]. unfold eligible in He. rewrite He.
  rewrite (validateInput_active langs _ i T);
    [| reflexivity
     | cbn [masksData withInput withActiveMaskIndex]; rewrite ?Hm, ?HT;
       reflexivity].
  eexists. split; [reflexivity |].
  split; [reflexivity |]. split.
  { intros j T' HT'. apply Hmin; [exact HT' |].
    destruct (nth_error_parsed _ _ _ HT') as [t' ->].
    apply eligible_parsed, HD. }
  cbn [input withInput withActiveMaskIndex activeMaskIndex value
       validationMessage setCustomValidity].
  unfold getUnmaskedValue. cbn [input withInput].
  rewrite value_setValueAttr, stripNonDigits_stripLineBreaks.
  repeat split.
Qed.

Lemma adjustCursorPosition_frame (o : PhoneNumberMask.t) :
  indexOk o ->
  exists o',
    adjustCursorPosition o = Ok o'
    /\ value (input o') = value (input o)
    /\ validationMessage (input o') = validationMessage (input o)
    /\ activeMaskIndex o' = activeMaskIndex o
    /\ sameConfiguration o o'.
Proof.
  intros Hok.
  destruct (adjustCursorPosition_ok o Hok) as (a & b & [-> | ->]);
    eexists; (split; [reflexivity |]); repeat split.
Qed.

Lemma indexOk_of_nat (o : PhoneNumberMask.t) (i : nat) (T : MaskData) :
  activeMaskIndex o = Z.of_nat i ->
  nth_error (masksData o) i = Some T ->
  indexOk o.
Proof.
  intros Ha Hn. right. rewrite Ha. split; [lia |].
  apply Nat2Z.inj_lt. apply nth_error_Some. rewrite Hn. discriminate.
Qed.

Lemma allDigits_firstn (n : nat) (D : str) : allDigits D -> allDigits (firstn n D).
Proof.
  unfold allDigits. revert D.
  induction n as [| n IH]; intros D H; cbn [firstn]; [constructor |].
  destruct H as [| d D Hd H]; constructor; [exact Hd | apply IH, H].
Qed.

Lemma diffOf_nonneg (T : MaskData) (D : str) : (0 <= diffOf T D)%Z.
Proof. unfold diffOf. lia. Qed.

(** Truncating the digits to the selected template's [digitCount] does not
    change the selection. *)
Lemma selection_stable (mds : list MaskData) (D : str) (i i' : nat)
    (T T' : MaskData) :
  nth_error mds i = Some T ->
  (forall j Tj, nth_error mds j = Some Tj ->
     (diffOf T D <= diffOf Tj D)%Z /\ (j < i -> (diffOf T D < diffOf Tj D)%Z)) ->
  nth_error mds i' = Some T' ->
  (forall j Tj, nth_error mds j = Some Tj ->
     (diffOf T' (firstn (digitCount T) D)
      <= diffOf Tj (firstn (digitCount T) D))%Z
     /\ (j < i' -> (diffOf T' (firstn (digitCount T) D)
                    < diffOf Tj (firstn (digitCount T) D))%Z)) ->
  i' = i.
Proof.
  intros HT Hmin HT' Hmin'.
  destruct (Nat.le_gt_cases (length D) (digitCount T)) as [Hle | Hgt].
  - rewrite (firstn_all2 D Hle) in Hmin'.
    destruct (Nat.lt_trichotomy i' i) as [Hlt | [Heq | Hlt]]; [| exact Heq |].
    + destruct (Hmin _ _ HT') as [_ Hs]. destruct (Hmin' _ _ HT) as [Hl _].
      specialize (Hs Hlt). lia.
    + destruct (Hmin' _ _ HT) as [_ Hs]. destruct (Hmin _ _ HT') as [Hl _].
      specialize (Hs Hlt). lia.
  - assert (Hlen : length (firstn (digitCount T) D) = digitCount T)
      by (rewrite length_firstn; lia).
    assert (H0 : diffOf T (firstn (digitCount T) D) = 0%Z)
      by (unfold diffOf; rewrite Hlen; lia).
    destruct (Nat.lt_trichotomy i' i) as [Hlt | [Heq | Hlt]]; [| exact Heq |].
    + destruct (Hmin' _ _ HT) as [Hl _]. rewrite H0 in Hl.
      assert (Hdc : digitCount T' = digitCount T).
      { unfold diffOf in Hl. rewrite Hlen in Hl. lia. }
      destruct (Hmin _ _ HT') as [_ Hs]. specialize (Hs Hlt).
      unfold diffOf in Hs. rewrite Hdc in Hs. lia.
    + destruct (Hmin' _ _ HT) as [_ Hs]. specialize (Hs Hlt).
      rewrite H0 in Hs.
      pose proof (diffOf_nonneg T' (firstn (digitCount T) D)). lia.
Qed.

Lemma nth_error_parsed_In (ts : list str) (j : nat) (T : MaskData) :
  nth_error (map parsed ts) j = Some T -> exists t, In t ts /\ T = parsed t.
Proof.
  rewrite nth_error_map. destruct (nth_error ts j) as [t |] eqn:E; cbn.
  - intros H. injection H as <-. exists t.
    split; [apply (nth_error_In _ _ E) | reflexivity].
  - discriminate.
Qed.

Lemma handleInput_unfold (langs : list str) (ty : str) (o : PhoneNumberMask.t) :
  str_eqb ty (js "deleteContentBackward")
  || str_eqb ty (js "deleteContentForward") = false ->
  handleInput langs ty o
  = (o1 <- applyBestMask langs (stripNonDigits (value (input o))) o ;;
     adjustCursorPosition o1).
Proof. intros H. unfold handleInput. rewrite H. reflexivity. Qed.

(** The state after [handleInput] over parsed masks, field by field. *)
Lemma handleInput_parsed (langs : list str) (ts : list str) (ty : str)
    (o : PhoneNumberMask.t) :
  masksData o = map parsed ts ->
  ts <> [] ->
  str_eqb ty (js "deleteContentBackward")
  || str_eqb ty (js "deleteContentForward") = false ->
  let D := stripNonDigits (value (input o)) in
  exists i T o',
    handleInput langs ty o = Ok o'
    /\ nth_error (map parsed ts) i = Some T
    /\ (forall j T',
          nth_error (map parsed ts) j = Some T' ->
          (diffOf T D <= diffOf T' D)%Z
          /\ (j < i -> (diffOf T D < diffOf T' D)%Z))
    /\ activeMaskIndex o' = Z.of_nat i
    /\ value (input o') = stripLineBreaks (render T D)
    /\ validationMessage (input o')
       = (if RegExp.test (regex T) (stripLineBreaks (render T D))
             && Nat.eqb (length (stripNonDigits (render T D))) (digitCount T)
          then [] else getErrorMessage langs o)
    /\ sameConfiguration o o'.
Proof.
  intros Hm Hne Hty D. rewrite (handleInput_unfold langs ty o Hty). fold D.
  destruct (applyBestMask_parsed langs ts D o Hm Hne
              (stripNonDigits_allDigits _))
    as (i & T & oa & -> & HT & Hmin & Hact & Hval & Hmsg & Hmd & Hop).
  cbn [bind].
  assert (Hok : indexOk oa).
  { apply (indexOk_of_nat oa i T Hact). rewrite Hmd, Hm. exact HT. }
  destruct (adjustCursorPosition_frame oa Hok)
    as (o1 & -> & Hv1 & Hm1 & Ha1 & Hmd1 & Hop1).
  exists i, T, o1. split; [reflexivity |]. split; [exact HT |].
  split; [exact Hmin |]. split; [congruence |]. split; [congruence |].
  split; [congruence |]. split; congruence.
Qed.

(** X4.  Formatting is idempotent for templates without digit characters:
    when the [input] handler runs again on the text it has just produced,
    the display, the active template and the validity message stay as they
    are. *)
Theorem handleInput_is_idempotent :
  forall (langs : list str) (ts : list str) (ty : str) (o : PhoneNumberMask.t),
    ts <> [] ->
    mapM parseMask ts = Ok (masksData o) ->
    (forall t, In t ts -> noLiteralDigits t) ->
    str_eqb ty (js "deleteContentBackward")
    || str_eqb ty (js "deleteContentForward") = false ->
    exists o1 o2,
      handleInput langs ty o = Ok o1
      /\ handleInput langs ty o1 = Ok o2
      /\ value (input o2) = value (input o1)
      /\ activeMaskIndex o2 = activeMaskIndex o1
      /\ validationMessage (input o2) = validationMessage (input o1).
Proof.
  intros langs ts ty o Hne Hm Hlit Hty. apply mapM_parseMask_inv in Hm.
  destruct (handleInput_parsed langs ts ty o Hm Hne Hty)
    as (i & T & o1 & H1 & HT & Hmin & Hact & Hval & Hmsg & Hmd & Hop).
  assert (Hm1 : masksData o1 = map parsed ts) by congruence.
  destruct (handleInput_parsed langs ts ty o1 Hm1 Hne Hty)
    as (i' & T' & o2 & H2 & HT' & Hmin' & Hact' & Hval' & Hmsg' & _ & _).
  exists o1, o2. split; [exact H1 |]. split; [exact H2 |].
  destruct (nth_error_parsed_In _ _ _ HT) as (t & Hin & ->).
  set (D := stripNonDigits (value (input o))) in *.
  assert (HD' : stripNonDigits (value (input o1))
                = firstn (digitCount (parsed t)) D).
  { rewrite Hval, stripNonDigits_stripLineBreaks, render_parsed.
    apply stripNonDigits_fill;
      [apply Hlit, Hin | apply stripNonDigits_allDigits]. }
  rewrite HD' in Hmin', Hval', Hmsg'.
  assert (Hi : i' = i)
    by exact (selection_stable _ D i i' _ _ HT Hmin HT' Hmin').
  subst i'. rewrite HT in HT'. injection HT' as <-.
  assert (Hr : render (parsed t) (firstn (digitCount (parsed t)) D)
               = render (parsed t) D).
  { rewrite !render_parsed. apply fill_firstn. }
  rewrite Hr in Hval', Hmsg'.
  rewrite (getErrorMessage_options langs o o1 Hop) in Hmsg'.
  split; [congruence |]. split; congruence.
Qed.

Lemma handleInput_is_idempotent_witness :
  [mobileMask; landlineMask] <> []
  /\ mapM parseMask [mobileMask; landlineMask]
     = Ok (masksData (instance [mobile; landline] (-1) (js "119") 3))
  /\ (forall t, In t [mobileMask; landlineMask] -> noLiteralDigits t)
  /\ exists o1 o2,
       handleInput english (js "insertText")
         (instance [mobile; landline] (-1) (js "119") 3) = Ok o1
       /\ handleInput english (js "insertText") o1 = Ok o2
       /\ value (input o2) = value (input o1)
       /\ activeMaskIndex o2 = activeMaskIndex o1
       /\ validationMessage (input o2) = validationMessage (input o1).
Proof.
  assert (Hlit : forall t, In t [mobileMask; landlineMask] -> noLiteralDigits t).
  { intros t [<- | [<- | []]];
      [exact noLiteralDigits_mobile | exact noLiteralDigits_landline]. }
  split; [discriminate |]. split; [reflexivity |]. split; [exact Hlit |].
  apply (handleInput_is_idempotent english [mobileMask; landlineMask]
           (js "insertText") (instance [mobile; landline] (-1) (js "119") 3)).
  - discriminate.
  - reflexivity.
  - exact Hlit.
  - reflexivity.
Defined.

Lemma instantiate_keeps_literals (m : str) (c : ascii) :
  In c m ->
  Ascii.eqb c "#" = false ->
  forall fills, In c (instantiate m fills).
Proof.
  intros Hin Hc. induction m as [| x m IH]; [destruct Hin |].
  intros fills. cbn [instantiate].
  destruct Hin as [-> | Hin].
  - rewrite Hc. left. reflexivity.
  - destruct (Ascii.eqb x "#").
    + destruct fills as [| [d |] fills]; [| right |]; apply IH, Hin.
    + right. apply IH, Hin.
Qed.

(** A sanitized text never matches the matcher of a template that holds a
    line break. *)
Lemma test_sanitized_line_break (t v : str) :
  Exists (fun c => isLineBreak c = true) t ->
  RegExp.test (atomsOf t) (stripLineBreaks v) = false.
Proof.
  intros Hex. apply Exists_exists in Hex. destruct Hex as (c & Hin & Hc).
  destruct (RegExp.test (atomsOf t) (stripLineBreaks v)) eqn:E; [| reflexivity].
  apply test_instantiate in E. destruct E as (fills & _ & _ & E).
  assert (Hnot : Ascii.eqb c "#" = false).
  { destruct (Ascii.eqb_spec c "#") as [-> | _]; [discriminate | reflexivity]. }
  pose proof (instantiate_keeps_literals t c Hin Hnot fills) as H.
  rewrite <- E in H. unfold stripLineBreaks in H.
  apply filter_In in H. destruct H as [_ H]. rewrite Hc in H. discriminate.
Qed.

(** X5.  After [setValue] with a non-empty string, over templates without
    digit characters, the single-line field shows the render of the
    selected template, less any line break, and its unmasked value is the
    digits of the string cut to the template's [digitCount].  When the
    selected template holds no line break the field shows the render
    itself, and it is valid exactly when the string holds at least as many
    digits as the template has placeholders; surplus digits are cut off
    and do not make the field invalid.  When the template holds a line
    break the field is never valid. *)
Theorem setValue_valid_iff_enough_digits :
  forall (langs : list str) (ts : list str) (c : ascii) (s : str)
         (o : PhoneNumberMask.t),
    ts <> [] ->
    mapM parseMask ts = Ok (masksData o) ->
    (forall t, In t ts -> noLiteralDigits t) ->
    exists o' i T,
      setValue langs (JString (c :: s)) o = Ok o'
      /\ activeMaskIndex o' = Z.of_nat i
      /\ nth_error (masksData o') i = Some T
      /\ value (input o') = stripLineBreaks (render T (stripNonDigits (c :: s)))
      /\ getUnmaskedValue o'
         = firstn (digitCount T) (stripNonDigits (c :: s))
      /\ (noLineBreaks (mask T) ->
          value (input o') = render T (stripNonDigits (c :: s))
          /\ (validationMessage (input o') = []
              <-> digitCount T <= length (stripNonDigits (c :: s))))
      /\ (Exists (fun x => isLineBreak x = true) (mask T) ->
          validationMessage (input o') <> []).
Proof.
  intros langs ts c s o Hne Hm Hlit. apply mapM_parseMask_inv in Hm.
  cbn [setValue]. set (D := stripNonDigits (c :: s)).
  assert (HD : allDigits D) by apply stripNonDigits_allDigits.
  destruct (applyBestMask_parsed langs ts D o Hm Hne HD)
    as (i & T & o' & -> & HT & _ & Hact & Hval & Hmsg & Hmd & _).
  exists o', i, T. split; [reflexivity |]. split; [exact Hact |].
  split; [rewrite Hmd, Hm; exact HT |]. split; [exact Hval |].
  destruct (nth_error_parsed_In _ _ _ HT) as (t & Hin & ->).
  assert (Hu : stripNonDigits (render (parsed t) D)
               = firstn (digitCount (parsed t)) D).
  { rewrite render_parsed. apply stripNonDigits_fill; [apply Hlit, Hin | exact HD]. }
  split; [| split].
  - unfold getUnmaskedValue.
    rewrite Hval, stripNonDigits_stripLineBreaks. exact Hu.
  - intros Hnb. cbn [mask parsed] in Hnb.
    assert (Hs : stripLineBreaks (render (parsed t) D) = render (parsed t) D).
    { rewrite render_parsed. apply stripLineBreaks_fill; assumption. }
    split; [rewrite Hval; exact Hs |].
    rewrite Hmsg, Hs, Hu, length_firstn.
    pose proof (eligible_parsed t D HD) as He. unfold eligible in He.
    rewrite He. cbn [andb].
    destruct (Nat.eqb_spec (Nat.min (digitCount (parsed t)) (length D))
                (digitCount (parsed t))) as [Heq | Hneq].
    + split; [intros _; lia | reflexivity].
    + split; [| intros Hle; lia].
      intros H. exfalso. exact (getErrorMessage_nonempty langs o H).
  - intros Hex. cbn [mask parsed] in Hex. rewrite Hmsg.
    cbn [regex parsed]. rewrite (test_sanitized_line_break t _ Hex).
    cbn [andb]. apply getErrorMessage_nonempty.
Qed.

Lemma noLineBreaks_mobile : noLineBreaks mobileMask.
Proof. repeat constructor. Qed.

Lemma noLineBreaks_landline : noLineBreaks landlineMask.
Proof. repeat constructor. Qed.

Lemma setValue_valid_iff_enough_digits_witness :
  [mobileMask; landlineMask] <> []
  /\ mapM parseMask [mobileMask; landlineMask]
     = Ok (masksData (instance [mobile; landline] (-1) [] 0))
  /\ (forall t, In t [mobileMask; landlineMask] -> noLiteralDigits t)
  /\ exists o' i T,
       setValue english (JString (js "119"))
         (instance [mobile; landline] (-1) [] 0) = Ok o'
       /\ activeMaskIndex o' = Z.of_nat i
       /\ nth_error (masksData o') i = Some T
       /\ value (input o')
          = stripLineBreaks (render T (stripNonDigits (js "119")))
       /\ getUnmaskedValue o'
          = firstn (digitCount T) (stripNonDigits (js "119"))
       /\ (noLineBreaks (mask T) ->
           value (input o') = render T (stripNonDigits (js "119"))
           /\ (validationMessage (input o') = []
               <-> digitCount T <= length (stripNonDigits (js "119"))))
       /\ (Exists (fun x => isLineBreak x = true) (mask T) ->
           validationMessage (input o') <> []).
Proof.
  assert (Hlit : forall t, In t [mobileMask; landlineMask] -> noLiteralDigits t).
  { intros t [<- | [<- | []]];
      [exact noLiteralDigits_mobile | exact noLiteralDigits_landline]. }
  split; [discriminate |]. split; [reflexivity |]. split; [exact Hlit |].
  apply (setValue_valid_iff_enough_digits english [mobileMask; landlineMask]
           "1" (js "19") (instance [mobile; landline] (-1) [] 0)).
  - discriminate.
  - reflexivity.
  - exact Hlit.
Defined.

(** *** [handleKeyDown]: faults and invariants *)

Lemma unmaskedLoop_ok (m : MaskData) : forall n i acc,
  exists r, unmaskedLoop (Some m) n i acc = Ok r.
Proof.
  induction n as [| n IH]; intros i acc; cbn [unmaskedLoop defined bind];
    [eauto | apply IH].
Qed.

Lemma getCursorPos_ok (o : PhoneNumberMask.t) (n : nat) :
  indexOk o -> exists r, getCursorPosInUnmaskedValue n o = Ok r.
Proof.
  intros Hok. unfold getCursorPosInUnmaskedValue.
  destruct (activeMaskIndex o =? -1)%Z eqn:E; [eauto |].
  destruct Hok as [Hs | Hr]; [apply Z.eqb_neq in E; contradiction |].
  destruct (lookupZ_in_range _ _ Hr) as [m ->]. apply unmaskedLoop_ok.
Qed.

Lemma seekBackward_ok (m : MaskData) : forall n,
  exists z, seekBackward (Some m) n = Ok z.
Proof.
  induction n as [| n IH]; cbn [seekBackward defined bind]; [eauto |].
  destruct (isPlaceholderAt m n); cbn [negb]; [eauto | exact IH].
Qed.

Lemma setCursorPositionInFormatted_ok (k : nat) (o : PhoneNumberMask.t) :
  indexOk o ->
  exists a,
    setCursorPositionInFormatted k o
    = Ok (withInput (setSelectionRange a a (input o)) o).
Proof.
  intros Hok. unfold setCursorPositionInFormatted.
  destruct (activeMaskIndex o =? -1)%Z eqn:E; [eauto |].
  destruct Hok as [Hs | Hr]; [apply Z.eqb_neq in E; contradiction |].
  destruct (lookupZ_in_range _ _ Hr) as [m ->]. cbn [defined bind]. eauto.
Qed.

Lemma applyBestMask_frame (langs : list str) (D : str) (o : PhoneNumberMask.t) :
  exists o',
    applyBestMask langs D o = Ok o'
    /\ indexOk o'
    /\ sameConfiguration o o'.
Proof.
  unfold applyBestMask. cbn [masksData withActiveMaskIndex].
  destruct (selectBestMask_index (masksData o) D) as [Hi | (i & T & Hi & HT)].
  - rewrite Hi, Z.eqb_refl. cbn [negb bind].
    match goal with |- context [validateInput _ ?x] =>
      destruct (validateInput_ok langs x) as [msg ->] end.
    + left. reflexivity.
    + eexists. split; [reflexivity |]. split; [left; reflexivity |].
      split; reflexivity.
  - assert (Hr : (0 <= Z.of_nat i < Z.of_nat (length (masksData o)))%Z).
    { split; [lia |]. apply Nat2Z.inj_lt.
      apply nth_error_Some. rewrite HT. discriminate. }
    rewrite Hi, of_nat_not_sentinel, lookupZ_of_nat, HT.
    cbn [negb defined bind].
    match goal with |- context [validateInput _ ?x] =>
      destruct (validateInput_ok langs x) as [msg ->] end.
    + right. exact Hr.
    + eexists. split; [reflexivity |]. split; [right; exact Hr |].
      split; reflexivity.
Qed.

Lemma setValue_frame (langs : list str) (v : jsval) (o : PhoneNumberMask.t) :
  exists o',
    setValue langs v o = Ok o' /\ indexOk o' /\ sameConfiguration o o'.
Proof.
  assert (Hreset : exists o',
            validateInput langs
              (withActiveMaskIndex (-1) (withInput (setValueAttr [] (input o)) o))
            = Ok o' /\ indexOk o' /\ sameConfiguration o o').
  { match goal with |- context [validateInput _ ?x] =>
      destruct (validateInput_ok langs x) as [msg ->] end.
    - left. reflexivity.
    - eexists. split; [reflexivity |]. split; [left; reflexivity |].
      split; reflexivity. }
  destruct v as [| | s]; cbn [setValue]; try exact Hreset.
  destruct s as [| c s]; [exact Hreset |].
  apply applyBestMask_frame.
Qed.

(** The common end of the two deletion keys: re-render, then place the
    caret. *)
Lemma deletion_finish_ok (langs : list str) (newUnmaskedValue : str)
    (cursorPos : nat) (o : PhoneNumberMask.t) :
  exists o',
    (o1 <- setValue langs (JString newUnmaskedValue) o ;;
     o2 <- setCursorPositionInFormatted cursorPos o1 ;;
     Ok (o2, true)) = Ok (o', true)
    /\ indexOk o'
    /\ sameConfiguration o o'.
Proof.
  destruct (setValue_frame langs (JString newUnmaskedValue) o)
    as (o1 & -> & Hok & Hmd & Hop).
  cbn [bind].
  destruct (setCursorPositionInFormatted_ok cursorPos o1 Hok) as [a ->].
  cbn [bind]. eexists. split; [reflexivity |].
  split; [exact Hok |]. split; [exact Hmd | exact Hop].
Qed.

(** What [handleKeyDown] can do on an instance whose active index is sound:
    complete, keeping the configuration and a sound index, or throw a
    [TypeError] in the one situation described. *)
Lemma handleKeyDown_cases (langs : list str) (event : KeyboardEvent)
    (o : PhoneNumberMask.t) :
  indexOk o ->
  (exists o' prevented,
     handleKeyDown langs event o = Ok (o', prevented)
     /\ indexOk o'
     /\ sameConfiguration o o')
  \/ (handleKeyDown langs event o = Throw TypeError
      /\ activeMaskIndex o = (-1)%Z
      /\ selectionEnd (input o) = selectionStart (input o)
      /\ (keyCode event = 46
          \/ (keyCode event = 8 /\ 0 < selectionStart (input o)))).
Proof.
  intros Hok. unfold handleKeyDown. cbv zeta.
  assert (Hsame : sameConfiguration o o) by (split; reflexivity).
  destruct ((ctrlKey event || metaKey event)
            && includes [65; 67; 86; 88] (keyCode event)
            || includes [9; 27; 13] (keyCode event)
            || ((35 <=? keyCode event) && (keyCode event <=? 40))%nat).
  { left. exists o, false. auto. }
  destruct (Nat.eqb (keyCode event) 8 || Nat.eqb (keyCode event) 46) eqn:Hdel.
  2: { left. destruct (_ && _); [exists o, true | exists o, false]; auto. }
  clear Hsame.
  destruct Hok as [Hs | Hr].
  - (* no active mask *)
    unfold getCursorPosInUnmaskedValue. rewrite Hs, Z.eqb_refl.
    cbn [bind]. change (lookupZ (masksData o) (-1)) with (@None MaskData).
    destruct (Nat.eqb_spec (selectionStart (input o)) (selectionEnd (input o)))
      as [Hcol | Hcol].
    + destruct (Nat.eqb_spec (keyCode event) 8) as [H8 | H8].
      * destruct (selectionStart (input o)) as [| n] eqn:Hst.
        -- left. cbn [seekBackward bind Z.geb Z.compare].
           destruct (deletion_finish_ok langs (getUnmaskedValue o) 0 o)
             as (o' & -> & Hok' & Hsame).
           exists o', true. auto.
        -- right. cbn [seekBackward defined bind].
           repeat split; auto. right. split; [exact H8 | lia].
      * cbn [orb] in Hdel. rewrite Hdel.
        right. cbn [defined bind]. apply Nat.eqb_eq in Hdel.
        repeat split; auto.
    + left. cbn [bind].
      match goal with |- context [setValue _ (JString ?u) _] =>
        match goal with |- context [setCursorPositionInFormatted ?cp _] =>
          destruct (deletion_finish_ok langs u cp o)
            as (o' & -> & Hok' & Hsame) end end.
      exists o', true. auto.
  - (* an active mask *)
    left.
    assert (Hok : indexOk o) by (right; exact Hr).
    destruct (lookupZ_in_range _ _ Hr) as [m Hm]. rewrite Hm.
    destruct (getCursorPos_ok o (selectionStart (input o)) Hok) as [cp ->].
    destruct (getCursorPos_ok o (selectionEnd (input o)) Hok) as [ce Hce].
    cbn [bind].
    assert (Hfin : forall u k,
              exists o' prevented,
                (let '(newUnmaskedValue, cursorPos) := (u, k) in
                 o1 <- setValue langs (JString newUnmaskedValue) o ;;
                 o2 <- setCursorPositionInFormatted cursorPos o1 ;;
                 Ok (o2, true)) = Ok (o', prevented)
                /\ indexOk o' /\ sameConfiguration o o').
    { intros u k. destruct (deletion_finish_ok langs u k o)
        as (o' & Hf & Hok' & Hsame).
      exists o', true. auto. }
    destruct (Nat.eqb (selectionStart (input o)) (selectionEnd (input o))).
    + destruct (Nat.eqb (keyCode event) 8).
      * destruct (seekBackward_ok m (selectionStart (input o))) as [z ->].
        cbn [bind]. destruct (z >=? 0)%Z.
        -- destruct (getCursorPos_ok o (Z.to_nat z) Hok) as [k ->].
           cbn [bind]. apply Hfin.
        -- cbn [bind]. apply Hfin.
      * destruct (Nat.eqb (keyCode event) 46).
        -- cbn [defined bind]. destruct (_ <? _)%nat.
           ++ match goal with |- context [getCursorPosInUnmaskedValue ?n o] =>
                destruct (getCursorPos_ok o n Hok) as [k ->] end.
              cbn [bind]. apply Hfin.
           ++ cbn [bind]. apply Hfin.
        -- cbn [bind]. apply Hfin.
    + rewrite Hce. cbn [bind]. apply Hfin.
Qed.

Lemma handleKeyDown_throws_without_mask (langs : list str)
    (event : KeyboardEvent) (o : PhoneNumberMask.t) :
  activeMaskIndex o = (-1)%Z ->
  selectionEnd (input o) = selectionStart (input o) ->
  keyCode event = 46 \/ (keyCode event = 8 /\ 0 < selectionStart (input o)) ->
  handleKeyDown langs event o = Throw TypeError.
Proof.
  intros Hs Hcol Hkey. unfold handleKeyDown. cbv zeta.
  unfold getCursorPosInUnmaskedValue. rewrite Hs, Z.eqb_refl, Hcol, Nat.eqb_refl.
  change (lookupZ (masksData o) (-1)) with (@None MaskData).
  destruct Hkey as [Hk | [Hk Hpos]]; rewrite Hk.
  - change (includes [65; 67; 86; 88] 46) with false.
    rewrite andb_false_r. reflexivity.
  - change (includes [65; 67; 86; 88] 8) with false.
    rewrite andb_false_r.
    destruct (selectionStart (input o)) as [| n]; [lia | reflexivity].
Qed.

(** X6.  On an instance whose active index is sound (the sentinel or an
    index into the parsed masks), [handleKeyDown] throws only in one
    situation: no template is active, nothing is selected, and the key is
    Delete, or Backspace with the caret not at position 0; it then reads
    [mask] of [undefined] and the fault is a [TypeError].  In every other
    case the handler completes. *)
Theorem handleKeyDown_throws_iff_no_mask_to_delete_in :
  forall (langs : list str) (event : KeyboardEvent) (o : PhoneNumberMask.t),
    indexOk o ->
    ((exists e, handleKeyDown langs event o = Throw e)
     <-> activeMaskIndex o = (-1)%Z
         /\ selectionEnd (input o) = selectionStart (input o)
         /\ (keyCode event = 46
             \/ (keyCode event = 8 /\ 0 < selectionStart (input o))))
    /\ (forall e, handleKeyDown langs event o = Throw e -> e = TypeError).
Proof.
  intros langs event o Hok. split; [split |].
  - intros [e He].
    destruct (handleKeyDown_cases langs event o Hok)
      as [(o' & b & H & _) | (_ & H)]; [congruence | exact H].
  - intros (Hs & Hcol & Hkey). exists TypeError.
    apply handleKeyDown_throws_without_mask; assumption.
  - intros e He.
    destruct (handleKeyDown_cases langs event o Hok)
      as [(o' & b & H & _) | (H & _)]; congruence.
Qed.

Lemma handleKeyDown_throws_iff_no_mask_to_delete_in_witness :
  indexOk (instance [mobile] (-1) [] 0)
  /\ ((exists e,
         handleKeyDown english deleteKey (instance [mobile] (-1) [] 0) = Throw e)
      <-> activeMaskIndex (instance [mobile] (-1) [] 0) = (-1)%Z
          /\ selectionEnd (input (instance [mobile] (-1) [] 0))
             = selectionStart (input (instance [mobile] (-1) [] 0))
          /\ (keyCode deleteKey = 46
              \/ (keyCode deleteKey = 8
                  /\ 0 < selectionStart (input (instance [mobile] (-1) [] 0)))))
  /\ (forall e,
        handleKeyDown english deleteKey (instance [mobile] (-1) [] 0) = Throw e ->
        e = TypeError).
Proof.
  assert (Hok : indexOk (instance [mobile] (-1) [] 0)) by (left; reflexivity).
  split; [exact Hok |].
  apply (handleKeyDown_throws_iff_no_mask_to_delete_in english deleteKey
           (instance [mobile] (-1) [] 0) Hok).
Defined.

(** *** What the handlers keep *)

Lemma sameConfiguration_trans (a b c : PhoneNumberMask.t) :
  sameConfiguration a b -> sameConfiguration b c -> sameConfiguration a c.
Proof. intros [H1 H2] [H3 H4]. split; congruence. Qed.

(** X7.  The parsed masks and the options of an instance are fixed at
    construction, and the active index always stays sound: the constructor
    parses every mask of the options in order and yields a sound index, and
    from a sound index [setValue], the [input], [paste] and [blur] handlers
    complete, and they and a completing [keydown] handler leave
    [masksData] and [options] as they are and the index sound. *)
Theorem handlers_keep_masks_and_sound_index :
  (forall (doc : document) (langs : list str) (tg : target)
          (opts : UserOptions) (o : PhoneNumberMask.t),
      PhoneNumberMask.constructor doc langs tg opts = Ok o ->
      indexOk o
      /\ masksData o = map parsed (masks (options o))
      /\ masks (options o)
         = match userMasks opts with
           | Some ms => ms
           | None => [js "(##) #####-####"]
           end)
  /\ (forall (langs : list str) (o : PhoneNumberMask.t),
        indexOk o ->
        (forall v, exists o',
            setValue langs v o = Ok o' /\ indexOk o' /\ sameConfiguration o o')
        /\ (forall ty, exists o',
              handleInput langs ty o = Ok o'
              /\ indexOk o' /\ sameConfiguration o o')
        /\ (forall pasted, exists o',
              handlePaste langs pasted o = Ok o'
              /\ indexOk o' /\ sameConfiguration o o')
        /\ (exists o',
              handleBlur langs o = Ok o'
              /\ indexOk o' /\ sameConfiguration o o')
        /\ (forall event o' prevented,
              handleKeyDown langs event o = Ok (o', prevented) ->
              indexOk o' /\ sameConfiguration o o')).
Proof.
  split.
  - intros doc langs tg opts o. unfold PhoneNumberMask.constructor.
    destruct (match tg with
              | Selector s => doc s
              | Element el => Ok (Some el)
              | OtherValue => _
              end) as [[el |] |]; cbn [bind]; try discriminate.
    rewrite mapM_parseMask. cbn [bind].
    destruct (value el) as [| c v] eqn:Ev.
    + intros H. injection H as <-. cbn. split; [left; reflexivity | auto].
    + match goal with |- context [setValue ?l ?x ?y] =>
        destruct (setValue_frame l x y) as (o' & -> & Hok & Hmd & Hop) end.
      intros H. injection H as <-. rewrite Hmd, Hop. cbn. auto.
  - intros langs o Hok. split; [| split; [| split; [| split]]].
    + intros v. apply setValue_frame.
    + intros ty. unfold handleInput. destruct (_ || _).
      * exists o. split; [reflexivity |]. split; [exact Hok |].
        split; reflexivity.
      * destruct (applyBestMask_frame langs
                    (stripNonDigits (value (input o))) o)
          as (o1 & -> & Hok1 & Hsame1).
        cbn [bind].
        destruct (adjustCursorPosition_frame o1 Hok1)
          as (o2 & -> & _ & _ & Ha & Hsame2).
        exists o2. split; [reflexivity |]. split.
        -- destruct Hsame2 as [Hmd _]. unfold indexOk in *.
           rewrite Ha, Hmd. exact Hok1.
        -- apply (sameConfiguration_trans _ _ _ Hsame1 Hsame2).
    + intros pasted. unfold handlePaste.
      destruct (setValue_frame langs (JString (stripNonDigits pasted)) o)
        as (o1 & -> & Hok1 & Hsame1).
      cbn [bind].
      destruct (adjustCursorPosition_frame o1 Hok1)
        as (o2 & -> & _ & _ & Ha & Hsame2).
      exists o2. split; [reflexivity |]. split.
      * destruct Hsame2 as [Hmd _]. unfold indexOk in *.
        rewrite Ha, Hmd. exact Hok1.
      * apply (sameConfiguration_trans _ _ _ Hsame1 Hsame2).
    + unfold handleBlur. destruct (validateInput_ok langs o Hok) as [msg ->].
      eexists. split; [reflexivity |]. split; [exact Hok |]. split; reflexivity.
    + intros event o' prevented H.
      destruct (handleKeyDown_cases langs event o Hok)
        as [(o1 & b & H1 & Hok1 & Hsame1) | (H1 & _)]; [| congruence].
      rewrite H1 in H. injection H as <- <-. auto.
Qed.

Lemma handlers_keep_masks_and_sound_index_witness :
  (PhoneNumberMask.constructor noDocument english (Element emptyField) noOptions
   = Ok (instance [mobile] (-1) [] 0)
   /\ indexOk (instance [mobile] (-1) [] 0)
   /\ masksData (instance [mobile] (-1) [] 0)
      = map parsed (masks (options (instance [mobile] (-1) [] 0))))
  /\ (indexOk (instance [mobile] 0 (js "(11) 99999-9999") 15)
      /\ exists o' prevented,
           handleKeyDown english backspace
             (instance [mobile] 0 (js "(11) 99999-9999") 15)
           = Ok (o', prevented)
           /\ indexOk o'
           /\ sameConfiguration
                (instance [mobile] 0 (js "(11) 99999-9999") 15) o').
Proof.
  pose proof handlers_keep_masks_and_sound_index as [Hcons Hhandlers].
  split.
  - split; [reflexivity |].
    destruct (Hcons noDocument english (Element emptyField) noOptions
                (instance [mobile] (-1) [] 0) eq_refl) as (H1 & H2 & _).
    split; [exact H1 | exact H2].
  - assert (Hok : indexOk (instance [mobile] 0 (js "(11) 99999-9999") 15))
      by (right; simpl; lia).
    split; [exact Hok |].
    destruct (Hhandlers english _ Hok) as (_ & _ & _ & _ & Hkey).
    destruct (handleKeyDown english backspace
                (instance [mobile] 0 (js "(11) 99999-9999") 15))
      as [[o' b] | e] eqn:Hrun; [| vm_compute in Hrun; discriminate].
    exists o', b. split; [reflexivity |]. apply (Hkey backspace o' b Hrun).
Defined.

(** *** The Delete key and deletion of a selection *)






Lemma handleKeyDown_selection_unfold (langs : list str) (event : KeyboardEvent)
    (o : PhoneNumberMask.t) :
  keyCode event = 8 \/ keyCode event = 46 ->
  selectionStart (input o) <> selectionEnd (input o) ->
  handleKeyDown langs event o
  = (a <- getCursorPosInUnmaskedValue (selectionStart (input o)) o ;;
     b <- getCursorPosInUnmaskedValue (selectionEnd (input o)) o ;;
     o1 <- setValue langs
             (JString (firstn a (getUnmaskedValue o)
                       ++ skipn b (getUnmaskedValue o))) o ;;
     o2 <- setCursorPositionInFormatted a o1 ;;
     Ok (o2, true)).
Proof.
  intros Hk Hsel. unfold handleKeyDown. cbv zeta.
  apply Nat.eqb_neq in Hsel. rewrite Hsel.
  assert (Hfilter :
            (ctrlKey event || metaKey event)
            && includes [65; 67; 86; 88] (keyCode event)
            || includes [9; 27; 13] (keyCode event)
            || ((35 <=? keyCode event) && (keyCode event <=? 40))%nat = false).
  { destruct Hk as [-> | ->]; rewrite andb_false_r; reflexivity. }
  assert (Hdel : Nat.eqb (keyCode event) 8 || Nat.eqb (keyCode event) 46 = true).
  { destruct Hk as [-> | ->]; reflexivity. }
  rewrite Hfilter, Hdel.
  destruct (getCursorPosInUnmaskedValue (selectionStart (input o)) o)
    as [a |]; [| reflexivity].
  cbn [bind].
  destruct (getCursorPosInUnmaskedValue (selectionEnd (input o)) o)
    as [b |]; reflexivity.
Qed.

(** X9.  With an active template and a selection, Backspace and Delete do
    the same, whatever the modifier keys: both ends of the selection are
    mapped to unmasked offsets (the number of placeholders before each),
    the digits between the two offsets are removed, the digits before and
    after are kept, and the caret is put back at the offset of the
    selection's start. *)
Theorem selection_delete_removes_digit_span :
  forall (langs : list str) (event : KeyboardEvent) (t : str) (T : MaskData)
         (o : PhoneNumberMask.t) (i : nat),
    keyCode event = 8 \/ keyCode event = 46 ->
    parseMask t = Ok T ->
    activeMaskIndex o = Z.of_nat i ->
    nth_error (masksData o) i = Some T ->
    selectionStart (input o) <> selectionEnd (input o) ->
    handleKeyDown langs event o
    = (o1 <- setValue langs
               (JString
                  (firstn
                     (countPlaceholders (firstn (selectionStart (input o)) t))
                     (getUnmaskedValue o)
                   ++ skipn
                        (countPlaceholders (firstn (selectionEnd (input o)) t))
                        (getUnmaskedValue o))) o ;;
       o2 <- setCursorPositionInFormatted
               (countPlaceholders (firstn (selectionStart (input o)) t)) o1 ;;
       Ok (o2, true)).
Proof.
  intros langs event t T o i Hk HT Ha Hn Hsel. parsed_inv HT.
  rewrite (handleKeyDown_selection_unfold langs event o Hk Hsel).
  rewrite !(getCursorPos_active t o i _ Ha Hn). reflexivity.
Qed.

Lemma selection_delete_removes_digit_span_witness :
  (keyCode backspace = 8 \/ keyCode backspace = 46)
  /\ parseMask mobileMask = Ok mobile
  /\ selectionStart (input (selecting [mobile] 0 (js "(12) 34567-8901") 1 8))
     <> selectionEnd (input (selecting [mobile] 0 (js "(12) 34567-8901") 1 8))
  /\ handleKeyDown english backspace
       (selecting [mobile] 0 (js "(12) 34567-8901") 1 8)
     = (o1 <- setValue english (JString (js "678901"))
                (selecting [mobile] 0 (js "(12) 34567-8901") 1 8) ;;
        o2 <- setCursorPositionInFormatted 0 o1 ;;
        Ok (o2, true)).
Proof.
  split; [left; reflexivity |]. split; [reflexivity |].
  split; [simpl; lia |].
  apply (selection_delete_removes_digit_span english backspace
           mobileMask mobile
           (selecting [mobile] 0 (js "(12) 34567-8901") 1 8) 0).
  - left; reflexivity.
  - reflexivity.
  - reflexivity.
  - reflexivity.
  - simpl; lia.
Defined.

(** *** The key filter *)

(** X10.  For any key other than Backspace and Delete, [handleKeyDown]
    leaves the instance untouched and never throws, and it blocks the key
    (calls [preventDefault]) unless the key is one of: Ctrl/Cmd with A, C, V
    or X; Tab, Escape or Enter; a navigation key (codes 35 to 40); a digit of
    the top row without Shift; a digit of the numeric keypad. *)
Theorem keydown_blocks_all_but_digits_and_navigation :
  forall (langs : list str) (event : KeyboardEvent) (o : PhoneNumberMask.t),
    keyCode event <> 8 ->
    keyCode event <> 46 ->
    handleKeyDown langs event o = Ok (o, negb (passesKeyFilter event)).
Proof.
  intros langs event o H8 H46. unfold handleKeyDown, passesKeyFilter.
  cbv zeta.
  apply Nat.eqb_neq in H8. apply Nat.eqb_neq in H46. rewrite H8, H46.
  cbn [orb].
  destruct ((ctrlKey event || metaKey event)
            && includes [65; 67; 86; 88] (keyCode event)
            || includes [9; 27; 13] (keyCode event)
            || ((35 <=? keyCode event) && (keyCode event <=? 40))%nat);
    [reflexivity |].
  cbn [orb].
  destruct (shiftKey event);
    destruct (Nat.ltb_spec (keyCode event) 48);
    destruct (Nat.ltb_spec 57 (keyCode event));
    destruct (Nat.ltb_spec (keyCode event) 96);
    destruct (Nat.ltb_spec 105 (keyCode event));
    destruct (Nat.leb_spec 48 (keyCode event));
    destruct (Nat.leb_spec (keyCode event) 57);
    destruct (Nat.leb_spec 96 (keyCode event));
    destruct (Nat.leb_spec (keyCode event) 105);
    cbn; try reflexivity; lia.
Qed.

Lemma keydown_blocks_all_but_digits_and_navigation_witness :
  keyCode {| keyCode := 53; ctrlKey := false; metaKey := false;
             shiftKey := true |} <> 8
  /\ handleKeyDown english
       {| keyCode := 53; ctrlKey := false; metaKey := false; shiftKey := true |}
       (instance [mobile] 0 (js "(1") 2)
     = Ok (instance [mobile] 0 (js "(1") 2,
           negb (passesKeyFilter
                   {| keyCode := 53; ctrlKey := false; metaKey := false;
                      shiftKey := true |})).
Proof.
  split; [simpl; lia |].
  apply (keydown_blocks_all_but_digits_and_navigation english
           {| keyCode := 53; ctrlKey := false; metaKey := false;
              shiftKey := true |}
           (instance [mobile] 0 (js "(1") 2)); simpl; lia.
Defined.

(** *** More on the cursor maps *)

Lemma firstn_split {A : Type} (m : list A) : forall p p',
  p <= p' -> firstn p' m = firstn p m ++ firstn (p' - p) (skipn p m).
Proof.
  induction m as [| x m IH]; intros p p' Hle.
  - rewrite skipn_nil, !firstn_nil. reflexivity.
  - destruct p as [| p].
    + rewrite Nat.sub_0_r. reflexivity.
    + destruct p' as [| p']; [lia |].
      cbn [firstn skipn app Nat.sub]. rewrite (IH p p') by lia. reflexivity.
Qed.

Lemma countPlaceholders_firstn_mono (m : str) (p p' : nat) :
  p <= p' ->
  countPlaceholders (firstn p m) <= countPlaceholders (firstn p' m)
  /\ countPlaceholders (firstn p' m) - countPlaceholders (firstn p m) <= p' - p
  /\ countPlaceholders (firstn p' m) <= countPlaceholders m.
Proof.
  intros Hle.
  assert (H1 : countPlaceholders (firstn p' m)
               = countPlaceholders (firstn p m)
                 + countPlaceholders (firstn (p' - p) (skipn p m))).
  { rewrite <- countPlaceholders_app, <- (firstn_split m p p' Hle).
    reflexivity. }
  assert (H2 : countPlaceholders m
               = countPlaceholders (firstn p' m)
                 + countPlaceholders (skipn p' m)).
  { rewrite <- countPlaceholders_app, firstn_skipn. reflexivity. }
  pose proof (countPlaceholders_le_length (firstn (p' - p) (skipn p m))) as H3.
  rewrite length_firstn in H3. lia.
Qed.

(** X11.  With an active template, the unmasked offset of a formatted
    position is the number of placeholders before it.  It is monotone in
    the position, grows by at most one per character, never exceeds
    [digitCount], and equals [digitCount] from the end of the template on.
    Without an active template the offset is the position itself. *)
Theorem unmasked_offset_is_monotone_and_bounded :
  (forall (t : str) (T : MaskData) (o : PhoneNumberMask.t) (i p p' : nat),
      parseMask t = Ok T ->
      activeMaskIndex o = Z.of_nat i ->
      nth_error (masksData o) i = Some T ->
      p <= p' ->
      exists n n',
        getCursorPosInUnmaskedValue p o = Ok n
        /\ getCursorPosInUnmaskedValue p' o = Ok n'
        /\ n <= n'
        /\ n' - n <= p' - p
        /\ n' <= digitCount T
        /\ (length t <= p' -> n' = digitCount T))
  /\ (forall (o : PhoneNumberMask.t) (p : nat),
        activeMaskIndex o = (-1)%Z ->
        getCursorPosInUnmaskedValue p o = Ok p).
Proof.
  split.
  - intros t T o i p p' HT Ha Hn Hle. parsed_inv HT.
    rewrite !(getCursorPos_active t o i _ Ha Hn).
    exists (countPlaceholders (firstn p t)), (countPlaceholders (firstn p' t)).
    split; [reflexivity |]. split; [reflexivity |].
    cbn [digitCount parsed].
    destruct (countPlaceholders_firstn_mono t p p' Hle) as (H1 & H2 & H3).
    repeat split; try assumption.
    intros Hlen. rewrite firstn_all2 by assumption. reflexivity.
  - intros o p Hs. unfold getCursorPosInUnmaskedValue.
    rewrite Hs. reflexivity.
Qed.

Lemma unmasked_offset_is_monotone_and_bounded_witness :
  parseMask mobileMask = Ok mobile
  /\ 4 <= 9
  /\ exists n n',
       getCursorPosInUnmaskedValue 4
         (instance [mobile] 0 (js "(11) 99999-9999") 15) = Ok n
       /\ getCursorPosInUnmaskedValue 9
            (instance [mobile] 0 (js "(11) 99999-9999") 15) = Ok n'
       /\ n <= n'
       /\ n' - n <= 9 - 4
       /\ n' <= digitCount mobile
       /\ (length mobileMask <= 9 -> n' = digitCount mobile).
Proof.
  split; [reflexivity |]. split; [lia |].
  apply (proj1 unmasked_offset_is_monotone_and_bounded mobileMask mobile
           (instance [mobile] 0 (js "(11) 99999-9999") 15) 0 4 9).
  - reflexivity.
  - reflexivity.
  - reflexivity.
  - lia.
Defined.

Lemma countPlaceholders_firstn_S (m : str) (r : nat) :
  nth_error m r = Some "#" ->
  countPlaceholders (firstn (S r) m) = S (countPlaceholders (firstn r m)).
Proof.
  intros H. rewrite (firstn_split m r (S r)) by lia.
  rewrite countPlaceholders_app, (skipn_nth_error _ _ _ H).
  replace (S r - r) with 1 by lia. cbn. lia.
Qed.

Lemma isPlaceholderAt_parsed_true (t : str) (r : nat) :
  isPlaceholderAt (parsed t) r = true -> nth_error t r = Some "#".
Proof.
  rewrite isPlaceholderAt_parsed. destruct (nth_error t r) as [c |];
    [| discriminate].
  intros H. apply Ascii.eqb_eq in H. subst c. reflexivity.
Qed.

(** Two positions that are each a placeholder or the end of the mask, with
    the same number of placeholders before them, are the same position. *)
Lemma slot_position_unique (t : str) (r q : nat) :
  r <= length t -> q <= length t ->
  (r < length t -> isPlaceholderAt (parsed t) r = true) ->
  (q < length t -> isPlaceholderAt (parsed t) q = true) ->
  countPlaceholders (firstn r t) = countPlaceholders (firstn q t) ->
  r = q.
Proof.
  intros Hr Hq Pr Pq Hc.
  destruct (Nat.lt_trichotomy r q) as [Hlt | [Heq | Hlt]]; [| exact Heq |].
  - pose proof (countPlaceholders_firstn_S t r
                  (isPlaceholderAt_parsed_true t r (Pr ltac:(lia)))) as HS.
    destruct (countPlaceholders_firstn_mono t (S r) q ltac:(lia)) as [Hm _].
    lia.
  - pose proof (countPlaceholders_firstn_S t q
                  (isPlaceholderAt_parsed_true t q (Pq ltac:(lia)))) as HS.
    destruct (countPlaceholders_firstn_mono t (S q) r ltac:(lia)) as [Hm _].
    lia.
Qed.

Lemma formattedCursorPos_slot (t : str) (k : nat) :
  formattedCursorPos (parsed t) k <= length t
  /\ countPlaceholders (firstn (formattedCursorPos (parsed t) k) t)
     = Nat.min k (countPlaceholders t)
  /\ (formattedCursorPos (parsed t) k < length t ->
      isPlaceholderAt (parsed t) (formattedCursorPos (parsed t) k) = true).
Proof.
  pose proof (formattedLoop_spec k t [] 0 0 eq_refl eq_refl (Nat.le_0_l k)) as H.
  cbn zeta in H. cbn [app] in H. destruct H as (Hr & Hc & Hp).
  unfold formattedCursorPos. cbn [mask parsed].
  rewrite skipLiterals_stays; [auto |].
  intros Hpos. apply Hp. lia.
Qed.

(** X12.  The caret position [setCursorPositionInFormatted] computes for
    the unmasked offset [k] is the template position of the placeholder
    number [k], as recorded by [parseMask], when there is one, and the
    length of the template when [k] is [digitCount] or more. *)
Theorem caret_is_put_on_the_kth_placeholder :
  forall (t : str) (T : MaskData) (k : nat),
    parseMask t = Ok T ->
    (k < digitCount T ->
     nth_error (placeholders T) k
     = Some {| index := formattedCursorPos T k; charIndex := k |})
    /\ (digitCount T <= k -> formattedCursorPos T k = length t).
Proof.
  intros t T k HT. parsed_inv HT. cbn [digitCount placeholders parsed].
  destruct (formattedCursorPos_slot t k) as (Hr & Hc & Hp).
  set (r := formattedCursorPos (parsed t) k) in *.
  split.
  - intros Hk. rewrite Nat.min_l in Hc by lia.
    assert (Hlt : r < length t).
    { destruct (Nat.eq_dec r (length t)) as [He | Hne]; [| lia].
      rewrite He, firstn_all in Hc. lia. }
    pose proof (placeholdersFrom_nth t 0 0 r
                  (isPlaceholderAt_parsed_true t r (Hp Hlt))) as H.
    rewrite Hc in H. exact H.
  - intros Hk. rewrite Nat.min_r in Hc by lia.
    destruct (Nat.eq_dec r (length t)) as [He | Hne]; [exact He |].
    pose proof (countPlaceholders_firstn_S t r
                  (isPlaceholderAt_parsed_true t r (Hp ltac:(lia)))) as HS.
    destruct (countPlaceholders_firstn_mono t 0 (S r) (Nat.le_0_l _))
      as (_ & _ & Hm).
    lia.
Qed.

Lemma caret_is_put_on_the_kth_placeholder_witness :
  parseMask mobileMask = Ok mobile
  /\ (2 < digitCount mobile
      /\ nth_error (placeholders mobile) 2
         = Some {| index := formattedCursorPos mobile 2; charIndex := 2 |})
  /\ (digitCount mobile <= 11 /\ formattedCursorPos mobile 11 = length mobileMask).
Proof.
  split; [reflexivity |]. split.
  - split; [vm_compute; lia |].
    apply (proj1 (caret_is_put_on_the_kth_placeholder mobileMask mobile 2
                    eq_refl)).
    vm_compute; lia.
  - split; [vm_compute; lia |].
    apply (proj2 (caret_is_put_on_the_kth_placeholder mobileMask mobile 11
                    eq_refl)).
    vm_compute; lia.
Defined.

Lemma skipLiterals_spec (md : MaskData) : forall n pos,
  pos <= skipLiterals md n pos <= pos + n
  /\ (forall q, pos <= q < skipLiterals md n pos ->
                isPlaceholderAt md q = false)
  /\ (skipLiterals md n pos < pos + n ->
      isPlaceholderAt md (skipLiterals md n pos) = true).
Proof.
  induction n as [| n IH]; intros pos; cbn [skipLiterals].
  - split; [lia |]. split; [intros q Hq; lia | intros Hlt; lia].
  - destruct (isPlaceholderAt md pos) eqn:E.
    + split; [lia |]. split; [intros q Hq; lia | intros _; exact E].
    + destruct (IH (S pos)) as (H1 & H2 & H3).
      split; [lia |]. split.
      * intros q Hq. destruct (Nat.eq_dec q pos) as [-> | Hne]; [exact E |].
        apply H2. lia.
      * intros Hlt. apply H3. lia.
Qed.

Lemma countPlaceholders_literal_run (t : str) : forall p q,
  p <= q ->
  (forall x, p <= x < q -> isPlaceholderAt (parsed t) x = false) ->
  countPlaceholders (firstn q t) = countPlaceholders (firstn p t).
Proof.
  intros p q Hle. induction Hle as [| q Hle IH]; intros Hlit; [reflexivity |].
  rewrite <- IH by (intros x Hx; apply Hlit; lia).
  specialize (Hlit q ltac:(lia)). rewrite isPlaceholderAt_parsed in Hlit.
  rewrite (firstn_split t q (S q)) by lia.
  rewrite countPlaceholders_app. replace (S q - q) with 1 by lia.
  destruct (nth_error t q) as [c |] eqn:E.
  - rewrite (skipn_nth_error _ _ _ E). cbn [firstn].
    rewrite countPlaceholders_cons, Hlit. cbn. lia.
  - apply nth_error_None in E. rewrite skipn_all2 by lia. cbn. lia.
Qed.

(** X13.  The other round trip of the cursor maps: mapping a formatted
    position [p] of the template to its unmasked offset and back gives the
    first placeholder position at or after [p], or the end of the template
    when there is none ([skipLiterals] from [p]); so a position that is a
    placeholder, and the end of the template, are mapped back to
    themselves. *)
Theorem formatted_position_round_trip :
  forall (t : str) (T : MaskData) (o : PhoneNumberMask.t) (i p : nat),
    parseMask t = Ok T ->
    activeMaskIndex o = Z.of_nat i ->
    nth_error (masksData o) i = Some T ->
    p <= length t ->
    exists n,
      getCursorPosInUnmaskedValue p o = Ok n
      /\ formattedCursorPos T n = skipLiterals T (length t - p) p
      /\ (isPlaceholderAt T p = true \/ p = length t ->
          formattedCursorPos T n = p).
Proof.
  intros t T o i p HT Ha Hn Hp. parsed_inv HT.
  rewrite (getCursorPos_active t o i _ Ha Hn).
  exists (countPlaceholders (firstn p t)). split; [reflexivity |].
  destruct (skipLiterals_spec (parsed t) (length t - p) p) as (Hq1 & Hq2 & Hq3).
  set (q := skipLiterals (parsed t) (length t - p) p) in *.
  destruct (formattedCursorPos_slot t (countPlaceholders (firstn p t)))
    as (Hr & Hc & Hpr).
  set (r := formattedCursorPos (parsed t) (countPlaceholders (firstn p t))) in *.
  assert (Hrq : r = q).
  { apply (slot_position_unique t r q); try lia; try assumption.
    - intros Hlt. apply Hq3. lia.
    - rewrite Hc, (countPlaceholders_literal_run t p q) by (lia || exact Hq2).
      destruct (countPlaceholders_firstn_mono t p p (le_n p)) as (_ & _ & Hm).
      lia. }
  split; [exact Hrq |].
  intros Hcase. rewrite Hrq. unfold q.
  destruct Hcase as [Hph | ->].
  - apply skipLiterals_stays. intros _. exact Hph.
  - rewrite Nat.sub_diag. reflexivity.
Qed.

Lemma formatted_position_round_trip_witness :
  parseMask mobileMask = Ok mobile
  /\ 3 <= length mobileMask
  /\ exists n,
       getCursorPosInUnmaskedValue 3
         (instance [mobile] 0 (js "(11) 99999-9999") 15) = Ok n
       /\ formattedCursorPos mobile n
          = skipLiterals mobile (length mobileMask - 3) 3
       /\ (isPlaceholderAt mobile 3 = true \/ 3 = length mobileMask ->
           formattedCursorPos mobile n = 3).
Proof.
  split; [reflexivity |]. split; [vm_compute; lia |].
  apply (formatted_position_round_trip mobileMask mobile
           (instance [mobile] 0 (js "(11) 99999-9999") 15) 0 3).
  - reflexivity.
  - reflexivity.
  - reflexivity.
  - vm_compute; lia.
Defined.

(** *** [adjustCursorPosition] *)

Lemma adjustLoop_spec (md : MaskData) : forall n pos,
  exists p,
    adjustLoop (Some md) n pos = Ok p
    /\ pos <= p <= pos + n
    /\ (forall q, pos <= q < p -> isPlaceholderAt md q = false)
    /\ (p < pos + n -> isPlaceholderAt md p = true).
Proof.
  induction n as [| n IH]; intros pos; cbn [adjustLoop defined bind].
  - exists pos. split; [reflexivity |]. split; [lia |].
    split; [intros q Hq; lia | intros Hlt; lia].
  - destruct (isPlaceholderAt md pos) eqn:E.
    + exists pos. split; [reflexivity |]. split; [lia |].
      split; [intros q Hq; lia | intros _; exact E].
    + destruct (IH (S pos)) as (p & -> & H1 & H2 & H3).
      exists p. split; [reflexivity |]. split; [lia |]. split.
      * intros q Hq. destruct (Nat.eq_dec q pos) as [-> | Hne]; [exact E |].
        apply H2. lia.
      * intros Hlt. apply H3. lia.
Qed.

(** X14.  With an active template and the caret inside the text,
    [adjustCursorPosition] only moves the caret, and only forward: it skips
    the template's literal positions from the caret on and stops on the
    first placeholder position or at the end of the text, collapsing the
    selection there.  Without an active template it does nothing. *)
Theorem adjustCursorPosition_skips_literals_forward :
  (forall (o : PhoneNumberMask.t) (i : nat) (T : MaskData),
      activeMaskIndex o = Z.of_nat i ->
      nth_error (masksData o) i = Some T ->
      selectionStart (input o) <= length (value (input o)) ->
      exists o' p,
        adjustCursorPosition o = Ok o'
        /\ value (input o') = value (input o)
        /\ validationMessage (input o') = validationMessage (input o)
        /\ activeMaskIndex o' = activeMaskIndex o
        /\ selectionStart (input o') = p
        /\ selectionEnd (input o') = p
        /\ selectionStart (input o) <= p <= length (value (input o))
        /\ (forall q, selectionStart (input o) <= q < p ->
                      isPlaceholderAt T q = false)
        /\ (p < length (value (input o)) -> isPlaceholderAt T p = true))
  /\ (forall o : PhoneNumberMask.t,
        activeMaskIndex o = (-1)%Z -> adjustCursorPosition o = Ok o).
Proof.
  split.
  - intros o i T Ha Hn Hst. unfold adjustCursorPosition.
    rewrite Ha, of_nat_not_sentinel, lookupZ_of_nat, Hn. cbn [negb].
    destruct (adjustLoop_spec T
                (length (value (input o)) - selectionStart (input o))
                (selectionStart (input o))) as (p & -> & H1 & H2 & H3).
    cbn [bind]. eexists. exists p. split; [reflexivity |].
    cbn [input withInput value validationMessage activeMaskIndex
         selectionStart selectionEnd setSelectionRange].
    split; [reflexivity |]. split; [reflexivity |]. split; [exact Ha |].
    split; [lia |]. split; [lia |]. split; [lia |].
    split; [exact H2 |]. intros Hlt. apply H3. lia.
  - intros o Hs. unfold adjustCursorPosition. rewrite Hs. reflexivity.
Qed.

Lemma adjustCursorPosition_skips_literals_forward_witness :
  activeMaskIndex (instance [mobile] 0 (js "(11) 9") 3) = Z.of_nat 0
  /\ nth_error (masksData (instance [mobile] 0 (js "(11) 9") 3)) 0 = Some mobile
  /\ selectionStart (input (instance [mobile] 0 (js "(11) 9") 3))
     <= length (value (input (instance [mobile] 0 (js "(11) 9") 3)))
  /\ exists o' p,
       adjustCursorPosition (instance [mobile] 0 (js "(11) 9") 3) = Ok o'
       /\ value (input o') = value (input (instance [mobile] 0 (js "(11) 9") 3))
       /\ validationMessage (input o')
          = validationMessage (input (instance [mobile] 0 (js "(11) 9") 3))
       /\ activeMaskIndex o'
          = activeMaskIndex (instance [mobile] 0 (js "(11) 9") 3)
       /\ selectionStart (input o') = p
       /\ selectionEnd (input o') = p
       /\ selectionStart (input (instance [mobile] 0 (js "(11) 9") 3)) <= p
          <= length (value (input (instance [mobile] 0 (js "(11) 9") 3)))
       /\ (forall q,
             selectionStart (input (instance [mobile] 0 (js "(11) 9") 3)) <= q
             < p ->
             isPlaceholderAt mobile q = false)
       /\ (p < length (value (input (instance [mobile] 0 (js "(11) 9") 3))) ->
           isPlaceholderAt mobile p = true).
Proof.
  split; [reflexivity |]. split; [reflexivity |]. split; [simpl; lia |].
  apply (proj1 adjustCursorPosition_skips_literals_forward
           (instance [mobile] 0 (js "(11) 9") 3) 0 mobile).
  - reflexivity.
  - reflexivity.
  - simpl; lia.
Defined.

(** *** [handlePaste] *)

Lemma stripNonDigits_allDigits_id (D : str) : allDigits D -> stripNonDigits D = D.
Proof.
  unfold allDigits, stripNonDigits. intros H.
  induction H as [| d D Hd H IH]; [reflexivity |].
  cbn [filter]. rewrite Hd, IH. reflexivity.
Qed.

Lemma stripNonDigits_idempotent (s : str) :
  stripNonDigits (stripNonDigits s) = stripNonDigits s.
Proof. apply stripNonDigits_allDigits_id, stripNonDigits_allDigits. Qed.

(** X15.  Pasting replaces the whole text of the field by the formatted
    digits of the clipboard text, whatever the field held before.  When the
    clipboard text holds no digit, the field is emptied, no template is
    active and the field is flagged with the failure message.  Otherwise,
    over parsed masks, the template that the selection picks for the digits
    becomes active and the single-line field shows the render of the digits
    in it, less any line break: the render itself when the template holds
    no line break. *)
Theorem paste_replaces_text_by_formatted_digits :
  (forall (langs : list str) (pasted : str) (o : PhoneNumberMask.t),
      stripNonDigits pasted = [] ->
      exists o',
        handlePaste langs pasted o = Ok o'
        /\ value (input o') = []
        /\ activeMaskIndex o' = (-1)%Z
        /\ validationMessage (input o') = getErrorMessage langs o)
  /\ (forall (langs : list str) (ts : list str) (pasted : str)
             (o : PhoneNumberMask.t),
        ts <> [] ->
        mapM parseMask ts = Ok (masksData o) ->
        stripNonDigits pasted <> [] ->
        exists o' i T,
          handlePaste langs pasted o = Ok o'
          /\ nth_error (masksData o) i = Some T
          /\ (forall j T',
                nth_error (masksData o) j = Some T' ->
                (diffOf T (stripNonDigits pasted)
                 <= diffOf T' (stripNonDigits pasted))%Z
                /\ (j < i ->
                    (diffOf T (stripNonDigits pasted)
                     < diffOf T' (stripNonDigits pasted))%Z))
          /\ activeMaskIndex o' = Z.of_nat i
          /\ value (input o')
             = stripLineBreaks (render T (stripNonDigits pasted))
          /\ (noLineBreaks (mask T) ->
              value (input o') = render T (stripNonDigits pasted))).
Proof.
  split.
  - intros langs pasted o He. unfold handlePaste. rewrite He. cbn [setValue].
    unfold validateInput. cbn [activeMaskIndex withActiveMaskIndex].
    rewrite Z.eqb_refl. cbn [negb input withInput withActiveMaskIndex].
    rewrite value_setValueAttr. cbn [stripLineBreaks filter bind].
    unfold adjustCursorPosition. cbn [activeMaskIndex withInput].
    rewrite Z.eqb_refl. cbn [negb].
    eexists. split; [reflexivity |].
    cbn [input withInput value validationMessage setCustomValidity
         activeMaskIndex].
    split; [apply value_setValueAttr |]. split; reflexivity.
  - intros langs ts pasted o Hne Hm Hd. apply mapM_parseMask_inv in Hm.
    unfold handlePaste.
    destruct (stripNonDigits pasted) as [| c s] eqn:Ed; [contradiction |].
    cbn [setValue]. rewrite <- Ed, stripNonDigits_idempotent.
    destruct (applyBestMask_parsed langs ts (stripNonDigits pasted) o Hm Hne
                (stripNonDigits_allDigits _))
      as (i & T & o1 & -> & HT & Hmin & Hact & Hval & _ & Hmd & _).
    cbn [bind].
    assert (Hok : indexOk o1).
    { apply (indexOk_of_nat o1 i T Hact). rewrite Hmd, Hm. exact HT. }
    destruct (adjustCursorPosition_frame o1 Hok)
      as (o2 & -> & Hv & _ & Ha & _).
    exists o2, i, T. split; [reflexivity |].
    rewrite Hm, Hv, Ha.
    split; [exact HT |]. split; [exact Hmin |]. split; [exact Hact |].
    split; [exact Hval |].
    intros Hnb. rewrite Hval.
    destruct (nth_error_parsed_In _ _ _ HT) as (t & _ & ->).
    rewrite render_parsed.
    apply stripLineBreaks_fill; [exact Hnb | apply stripNonDigits_allDigits].
Qed.

Lemma paste_replaces_text_by_formatted_digits_witness :
  (stripNonDigits (js "n/a") = []
   /\ exists o',
        handlePaste english (js "n/a")
          (instance [mobile] 0 (js "(11) 99999-9999") 15) = Ok o'
        /\ value (input o') = []
        /\ activeMaskIndex o' = (-1)%Z
        /\ validationMessage (input o')
           = getErrorMessage english
               (instance [mobile] 0 (js "(11) 99999-9999") 15))
  /\ ([mobileMask; landlineMask] <> []
      /\ stripNonDigits (js "+55 (11) 3333-4444") <> []
      /\ exists o' i T,
           handlePaste english (js "+55 (11) 3333-4444")
             (instance [mobile; landline] (-1) [] 0) = Ok o'
           /\ nth_error (masksData (instance [mobile; landline] (-1) [] 0)) i
              = Some T
           /\ (forall j T',
                 nth_error (masksData (instance [mobile; landline] (-1) [] 0)) j
                 = Some T' ->
                 (diffOf T (stripNonDigits (js "+55 (11) 3333-4444"))
                  <= diffOf T' (stripNonDigits (js "+55 (11) 3333-4444")))%Z
                 /\ (j < i ->
                     (diffOf T (stripNonDigits (js "+55 (11) 3333-4444"))
                      < diffOf T'
                          (stripNonDigits (js "+55 (11) 3333-4444")))%Z))
           /\ activeMaskIndex o' = Z.of_nat i
           /\ value (input o')
              = stripLineBreaks
                  (render T (stripNonDigits (js "+55 (11) 3333-4444")))
           /\ (noLineBreaks (mask T) ->
               value (input o')
               = render T (stripNonDigits (js "+55 (11) 3333-4444")))).
Proof.
  pose proof paste_replaces_text_by_formatted_digits as [Hempty Hdigits].
  split.
  - split; [reflexivity |].
    apply (Hempty english (js "n/a")
             (instance [mobile] 0 (js "(11) 99999-9999") 15)).
    reflexivity.
  - split; [discriminate |]. split; [vm_compute; discriminate |].
    apply (Hdigits english [mobileMask; landlineMask]
             (js "+55 (11) 3333-4444")
             (instance [mobile; landline] (-1) [] 0)).
    + discriminate.
    + reflexivity.
    + vm_compute; discriminate.
Defined.

(** *** [escapeRegExp] *)

Lemma escapeRegExp_cons (c : ascii) (s : str) :
  escapeRegExp (c :: s) = escapeRegExp [c] ++ escapeRegExp s.
Proof. unfold escapeRegExp. cbn [flat_map]. rewrite app_nil_r. reflexivity. Qed.

Lemma parseAtoms_escapeRegExp (s : str) :
  RegExp.parseAtoms (escapeRegExp s ++ js "$") = Ok (map RegExp.Lit s).
Proof.
  induction s as [| c s IH]; [reflexivity |].
  rewrite escapeRegExp_cons, <- app_assoc, parseAtoms_escaped, IH.
  reflexivity.
Qed.

Lemma test_literals (s : str) : forall x,
  RegExp.test (map RegExp.Lit s) x = true <-> x = s.
Proof.
  induction s as [| c s IH]; intros x; cbn [map RegExp.test].
  - destruct x; split; intros H; try reflexivity; discriminate.
  - destruct x as [| y x]; [split; discriminate |].
    rewrite andb_true_iff, IH. split.
    + intros [Hy ->]. apply Ascii.eqb_eq in Hy. subst y. reflexivity.
    + intros H. injection H as -> ->. split; [apply Ascii.eqb_refl | reflexivity].
Qed.

(** X16.  [escapeRegExp] makes any text safe to embed in a pattern: the
    anchored pattern built from the escaped text compiles, whatever
    characters the text holds, and it matches that text and nothing else. *)
Theorem escaped_text_matches_exactly_itself :
  forall s : str,
    exists re,
      RegExp.compile (js "^" ++ escapeRegExp s ++ js "$") = Ok re
      /\ forall x, RegExp.test re x = true <-> x = s.
Proof.
  intros s. exists (map RegExp.Lit s). split.
  - cbn [js list_ascii_of_string app RegExp.compile].
    change (Ascii.eqb "^" "^") with true. cbv iota.
    apply parseAtoms_escapeRegExp.
  - apply test_literals.
Qed.

(** *** Failure messages *)

Lemma lookupKey_In (m : list (str * str)) (k v : str) :
  lookupKey m k = Some v -> In (k, v) m.
Proof.
  induction m as [| [k' v'] m IH]; cbn [lookupKey]; [discriminate |].
  destruct (str_eqb k' k) eqn:E.
  - intros H. injection H as ->. apply str_eqb_true in E. subst k'.
    left. reflexivity.
  - intros H. right. apply IH, H.
Qed.

Lemma truthy_Some (v : option str) (m : str) :
  truthy v = Some m -> v = Some m.
Proof.
  destruct v as [[| c s] |]; cbn; try discriminate.
  intros H. injection H as <-. reflexivity.
Qed.

Lemma truthy_of_nonempty (v : str) : v <> [] -> truthy (Some v) = Some v.
Proof. destruct v; [contradiction | reflexivity]. Qed.

Lemma getErrorMessageLoop_In (msgs : list (str * str)) (langs : list str) :
  forall m, getErrorMessageLoop msgs langs = Some m -> exists k, In (k, m) msgs.
Proof.
  induction langs as [| l langs IH]; intros m; cbn [getErrorMessageLoop].
  - discriminate.
  - destruct (truthy (lookupKey msgs l)) as [m1 |] eqn:E1.
    + intros H. injection H as <-. exists l.
      apply lookupKey_In, truthy_Some, E1.
    + destruct (truthy (lookupKey msgs (beforeDash l))) as [m2 |] eqn:E2.
      * intros H. injection H as <-. exists (beforeDash l).
        apply lookupKey_In, truthy_Some, E2.
      * apply IH.
Qed.

(** X17.  The failure message is never empty, and it is always an entry of
    the instance's message table or the built-in English message.  The
    navigator's languages are tried in order: an entry for the exact tag
    wins, then the entry of the tag's part before the first dash.  With the
    built-in table the instance method agrees with the static
    [getLocalizedMessage]. *)
Theorem error_message_is_a_table_entry_or_the_english_default :
  forall (langs : list str) (o : PhoneNumberMask.t),
    getErrorMessage langs o <> []
    /\ ((exists k, In (k, getErrorMessage langs o) (messages (options o)))
        \/ getErrorMessage langs o = js "Please enter a valid phone number.")
    /\ (forall l rest v,
          langs = l :: rest ->
          lookupKey (messages (options o)) l = Some v ->
          v <> [] ->
          getErrorMessage langs o = v)
    /\ (forall l rest v,
          langs = l :: rest ->
          truthy (lookupKey (messages (options o)) l) = None ->
          lookupKey (messages (options o)) (beforeDash l) = Some v ->
          v <> [] ->
          getErrorMessage langs o = v)
    /\ (messages (options o) = DEFAULT_MESSAGES ->
        getErrorMessage langs o = getLocalizedMessage langs).
Proof.
  intros langs o. split; [apply getErrorMessage_nonempty |].
  split; [| split; [| split]].
  - unfold getErrorMessage.
    destruct (getErrorMessageLoop _ _) as [m |] eqn:E.
    + left. apply (getErrorMessageLoop_In _ _ _ E).
    + destruct (truthy _) as [m |] eqn:E2.
      * left. exists (js "en"). apply lookupKey_In, truthy_Some, E2.
      * right. reflexivity.
  - intros l rest v -> Hl Hv. unfold getErrorMessage.
    cbn [getErrorMessageLoop]. rewrite Hl, (truthy_of_nonempty v Hv).
    reflexivity.
  - intros l rest v -> Hn Hl Hv. unfold getErrorMessage.
    cbn [getErrorMessageLoop]. rewrite Hn, Hl, (truthy_of_nonempty v Hv).
    reflexivity.
  - intros Hm. unfold getErrorMessage, getLocalizedMessage. rewrite Hm.
    destruct (getErrorMessageLoop _ _); reflexivity.
Qed.

Lemma error_message_is_a_table_entry_or_the_english_default_witness :
  lookupKey (messages (options (instance [mobile] 0 [] 0))) (js "pt-PT") = None
  /\ lookupKey (messages (options (instance [mobile] 0 [] 0)))
       (beforeDash (js "pt-PT"))
     = Some (js "Digite um número de telefone válido.")
  /\ getErrorMessage [js "pt-PT"; js "en"] (instance [mobile] 0 [] 0)
     = js "Digite um número de telefone válido."
  /\ getErrorMessage [js "pt-PT"; js "en"] (instance [mobile] 0 [] 0)
     = getLocalizedMessage [js "pt-PT"; js "en"].
Proof.
  pose proof (error_message_is_a_table_entry_or_the_english_default
                [js "pt-PT"; js "en"] (instance [mobile] 0 [] 0))
    as (_ & _ & _ & Hgeneral & Hstatic).
  split; [reflexivity |]. split; [reflexivity |]. split.
  - apply (Hgeneral (js "pt-PT") [js "en"]
             (js "Digite um número de telefone válido.")).
    + reflexivity.
    + reflexivity.
    + reflexivity.
    + discriminate.
  - apply Hstatic. reflexivity.
Defined.

(** *** [MoneyMask]: the key filter *)

(** X18.  The [keydown] handler of [MoneyMask] keeps a second minus sign and
    a second decimal separator out of the field.  For a minus key that is
    not part of a shortcut, the key is blocked exactly when negative values
    are disabled or the text already holds a minus; for the key of the
    decimal separator, exactly when the text already holds the separator. *)
Theorem money_keydown_allows_one_minus_and_one_separator :
  forall (event : MoneyMaskHandlers.KeyboardEvent) (m : MoneyMask.t)
         (opts : MoneyMask.Options),
    MoneyMask.options m = Some opts ->
    MoneyMaskHandlers.ctrlKey event = false ->
    MoneyMaskHandlers.metaKey event = false ->
    PhoneNumberMask.includes [46; 8; 9; 27; 13]
      (MoneyMaskHandlers.keyCode event) = false ->
    ((35 <=? MoneyMaskHandlers.keyCode event)
     && (MoneyMaskHandlers.keyCode event <=? 40))%nat = false ->
    (MoneyMaskHandlers.key event = js "-" ->
     MoneyMaskHandlers.handleKeyDown event m
     = Ok (negb (MoneyMask.allowNegative opts)
           || MoneyMaskHandlers.includesStr
                (MoneyMaskHandlers.targetValue event) (js "-")))
    /\ (MoneyMaskHandlers.key event = MoneyMask.decimal opts ->
        MoneyMaskHandlers.key event <> js "-" ->
        MoneyMaskHandlers.keyCode event <> 189 ->
        MoneyMaskHandlers.handleKeyDown event m
        = Ok (MoneyMaskHandlers.includesStr
                (MoneyMaskHandlers.targetValue event)
                (MoneyMask.decimal opts))).
Proof.
  intros event m opts Ho Hc Hmeta Hlist Hnav.
  unfold MoneyMaskHandlers.handleKeyDown. cbv zeta.
  rewrite Hlist, Hnav, Hc, Hmeta, Ho. cbn [orb].
  rewrite !andb_false_r. cbn [orb defined bind]. split.
  - intros Hk. rewrite Hk.
    change (str_eqb (js "-") (js "-")) with true. cbn [orb].
    destruct (_ || _); reflexivity.
  - intros Hk Hminus H189.
    assert (E1 : str_eqb (MoneyMaskHandlers.key event) (js "-") = false).
    { destruct (str_eqb _ _) eqn:E; [| reflexivity].
      apply str_eqb_true in E. contradiction. }
    apply Nat.eqb_neq in H189. rewrite E1, H189. cbn [orb].
    rewrite Hk.
    assert (E2 : str_eqb (MoneyMask.decimal opts) (MoneyMask.decimal opts) = true).
    { unfold str_eqb. destruct (list_eq_dec _ _ _); [reflexivity | contradiction]. }
    rewrite E2. destruct (MoneyMaskHandlers.includesStr _ _); reflexivity.
Qed.

Lemma money_keydown_allows_one_minus_and_one_separator_witness :
  MoneyMaskHandlers.handleKeyDown
    {| MoneyMaskHandlers.key := js "-"; MoneyMaskHandlers.keyCode := 189;
       MoneyMaskHandlers.ctrlKey := false; MoneyMaskHandlers.metaKey := false;
       MoneyMaskHandlers.shiftKey := false;
       MoneyMaskHandlers.targetValue := js "€ -1,00" |}
    (MoneyMaskHandlers.defaults emptyField)
  = Ok true
  /\ MoneyMaskHandlers.handleKeyDown
       {| MoneyMaskHandlers.key := js ","; MoneyMaskHandlers.keyCode := 188;
          MoneyMaskHandlers.ctrlKey := false; MoneyMaskHandlers.metaKey := false;
          MoneyMaskHandlers.shiftKey := false;
          MoneyMaskHandlers.targetValue := js "€ 100" |}
       (MoneyMaskHandlers.defaults emptyField)
     = Ok false.
Proof.
  split.
  - apply (proj1 (money_keydown_allows_one_minus_and_one_separator
                    {| MoneyMaskHandlers.key := js "-";
                       MoneyMaskHandlers.keyCode := 189;
                       MoneyMaskHandlers.ctrlKey := false;
                       MoneyMaskHandlers.metaKey := false;
                       MoneyMaskHandlers.shiftKey := false;
                       MoneyMaskHandlers.targetValue := js "€ -1,00" |}
                    (MoneyMaskHandlers.defaults emptyField) _
                    eq_refl eq_refl eq_refl eq_refl eq_refl)).
    reflexivity.
  - apply (proj2 (money_keydown_allows_one_minus_and_one_separator
                    {| MoneyMaskHandlers.key := js ",";
                       MoneyMaskHandlers.keyCode := 188;
                       MoneyMaskHandlers.ctrlKey := false;
                       MoneyMaskHandlers.metaKey := false;
                       MoneyMaskHandlers.shiftKey := false;
                       MoneyMaskHandlers.targetValue := js "€ 100" |}
                    (MoneyMaskHandlers.defaults emptyField) _
                    eq_refl eq_refl eq_refl eq_refl eq_refl)).
    + reflexivity.
    + discriminate.
    + simpl; lia.
Defined.

(** *** No masks at all *)

(** X19.  With an empty list of masks no template can be selected: both
    [setValue] and the [input] handler leave no active template, show the
    bare digits of the text, and report the field valid exactly when there
    is at least one digit. *)
Theorem without_masks_the_bare_digits_are_shown :
  forall (langs : list str) (o : PhoneNumberMask.t),
    masksData o = [] ->
    (forall v, exists o',
        setValue langs (JString v) o = Ok o'
        /\ activeMaskIndex o' = (-1)%Z
        /\ value (input o') = stripNonDigits v
        /\ (validationMessage (input o') = [] <-> stripNonDigits v <> []))
    /\ (forall ty,
          str_eqb ty (js "deleteContentBackward")
          || str_eqb ty (js "deleteContentForward") = false ->
          exists o',
            handleInput langs ty o = Ok o'
            /\ activeMaskIndex o' = (-1)%Z
            /\ value (input o') = stripNonDigits (value (input o))
            /\ (validationMessage (input o') = []
                <-> stripNonDigits (value (input o)) <> [])).
Proof.
  intros langs o Hm.
  assert (Hpass : forall D, allDigits D -> exists o',
            applyBestMask langs D o = Ok o'
            /\ activeMaskIndex o' = (-1)%Z
            /\ value (input o') = D
            /\ (validationMessage (input o') = [] <-> D <> [])).
  { intros D HD. unfold applyBestMask. rewrite Hm.
    cbn [selectBestMask selectLoop bestMatchIndex bestFormatted].
    rewrite Z.eqb_refl. cbn [negb bind]. unfold validateInput.
    cbn [activeMaskIndex withInput withActiveMaskIndex]. rewrite Z.eqb_refl.
    cbn [negb input withInput].
    rewrite value_setValueAttr, (stripLineBreaks_allDigits D HD).
    eexists. split; [reflexivity |].
    cbn [input withInput value validationMessage setCustomValidity
         activeMaskIndex withActiveMaskIndex].
    split; [reflexivity |].
    split; [rewrite value_setValueAttr; apply stripLineBreaks_allDigits, HD |].
    destruct D as [| d D].
    - split; [| intros H; contradiction].
      intros H. exfalso.
      match type of H with getErrorMessage ?l ?x = [] =>
        exact (getErrorMessage_nonempty l x H) end.
    - split; [intros _; discriminate | reflexivity]. }
  split.
  - intros v. destruct v as [| c s].
    + cbn [setValue]. unfold validateInput.
      cbn [activeMaskIndex withActiveMaskIndex]. rewrite Z.eqb_refl.
      cbn [negb input withInput withActiveMaskIndex].
      rewrite value_setValueAttr. cbn [stripLineBreaks filter].
      eexists. split; [reflexivity |].
      cbn [input withInput value validationMessage setCustomValidity
           activeMaskIndex].
      split; [reflexivity |]. split; [apply value_setValueAttr |].
      split; [| intros H; contradiction].
      intros H. exfalso.
      match type of H with getErrorMessage ?l ?x = [] =>
        exact (getErrorMessage_nonempty l x H) end.
    + cbn [setValue]. apply Hpass, stripNonDigits_allDigits.
  - intros ty Hty. rewrite (handleInput_unfold langs ty o Hty).
    destruct (Hpass (stripNonDigits (value (input o)))
                (stripNonDigits_allDigits _))
      as (o1 & -> & Ha & Hv & Hmsg).
    cbn [bind]. unfold adjustCursorPosition. rewrite Ha. cbn [Z.eqb negb].
    exists o1. auto.
Qed.

Lemma without_masks_the_bare_digits_are_shown_witness :
  masksData (instance [] (-1) [] 0) = []
  /\ exists o',
       setValue english (JString (js "(11) 9")) (instance [] (-1) [] 0) = Ok o'
       /\ activeMaskIndex o' = (-1)%Z
       /\ value (input o') = stripNonDigits (js "(11) 9")
       /\ (validationMessage (input o') = []
           <-> stripNonDigits (js "(11) 9") <> []).
Proof.
  split; [reflexivity |].
  apply (proj1 (without_masks_the_bare_digits_are_shown english
                  (instance [] (-1) [] 0) eq_refl) (js "(11) 9")).
Defined.

End Coverage.
